(** * docker-retag: the authenticating transport chain and the retag operation

    A shallow embedding of [transports.go] and of [NewRegistry],
    [Registry.ReTag] and [mainCmd] from [main.go].  Go strings are byte
    strings and are modelled by [string] (one [ascii] per byte); a [[]byte]
    is a [list ascii]; [map[string]string] is a [gmap string string].  A Go
    run-time panic is an explicit outcome. *)

From Stdlib Require Import Ascii NArith Lia.
From stdpp Require Import base option list strings gmap.
From Equations Require Import Equations.

Set Default Proof Using "Type".

(** ** Outcomes of code that can panic *)

(** [IndexOutOfRange i n] is Go's run-time error
    [index out of range [i] with length n]. *)
Inductive outcome (A : Type) : Type :=
| Ok (a : A)
| IndexOutOfRange (i n : nat).
Arguments Ok {A} a.
Arguments IndexOutOfRange {A} i n.

(** ** Byte strings and slices *)

Module Str.

(** [s[n:]] for [n <= len(s)]. *)
Fixpoint from (n : nat) (s : string) : string :=
  match n, s with
  | S n', String _ s' => from n' s'
  | _, _ => s
  end.

(** [s[:n]] for [n <= len(s)]. *)
Fixpoint upto (n : nat) (s : string) : string :=
  match n, s with
  | S n', String c s' => String c (upto n' s')
  | _, _ => EmptyString
  end.

(** [[]byte(s)] and [string(p)]. *)
Definition bytes (s : string) : list ascii := String.list_ascii_of_string s.
Definition of_bytes (p : list ascii) : string := String.string_of_list_ascii p.

(** [strings.HasPrefix(s, prefix)]. *)
Definition HasPrefix (s prefix : string) : bool := String.prefix prefix s.

Definition is_empty (s : string) : bool :=
  match s with EmptyString => true | String _ _ => false end.

(** ASCII lower-casing of one byte. *)
Definition lower (c : ascii) : ascii :=
  let n := N_of_ascii c in
  if ((65 <=? n) && (n <=? 90))%N then ascii_of_N (n + 32) else c.

(** [strings.ToLower] on a string of ASCII bytes.  The parser applies it to
    tokens only, whose bytes are all below 128 (see [expectToken_ascii]). *)
Fixpoint ToLower (s : string) : string :=
  match s with
  | EmptyString => EmptyString
  | String c s' => String (lower c) (ToLower s')
  end.

(** [strings.ContainsRune(chars, rune(c))] for a string of ASCII [chars]. *)
Definition ContainsRune (chars : list ascii) (c : ascii) : bool :=
  bool_decide (c ∈ chars).

(** [strings.Join(elems, sep)] *)
Fixpoint Join (elems : list string) (sep : string) : string :=
  match elems with
  | [] => EmptyString
  | [e] => e
  | e :: elems' => e +:+ sep +:+ Join elems' sep
  end.

End Str.

(** ** Octet types from RFC 2616 *)

Definition dquote : ascii := "034"%char.
Definition backslash : ascii := "092"%char.
Definition HT : ascii := "009"%char.
Definition LF : ascii := "010"%char.
Definition CR : ascii := "013"%char.
Definition SP : ascii := "032"%char.

(** [octetType] is a byte used as a bit set. *)
Definition isToken : N := 1.
Definition isSpace : N := 2.

Definition separators : list ascii :=
  [SP; HT; dquote; "("; ")"; ","; "/"; ":"; ";"; "<"; "="; ">"; "?"; "@";
   "["; "]"; backslash; "{"; "}"]%char.

Definition spaces : list ascii := [SP; HT; CR; LF].

(** The table entry [octetTypes[c]] as [init] fills it. *)
Definition octetTypes (b : ascii) : N :=
  let c := N_of_ascii b in
  let isCtl := ((c <=? 31) || (c =? 127))%N in
  let isChar := ((0 <=? c) && (c <=? 127))%N in
  let isSeparator := Str.ContainsRune separators b in
  let t := 0%N in
  let t := if Str.ContainsRune spaces b then N.lor t isSpace else t in
  let t := if isChar && negb isCtl && negb isSeparator then N.lor t isToken else t in
  t.

(** ** The lexer *)

(** The index at which the loop of [skipSpace] stops. *)
Fixpoint spaceEnd (s : string) : nat :=
  match s with
  | String c s' =>
      if (N.land (octetTypes c) isSpace =? 0)%N then 0 else S (spaceEnd s')
  | EmptyString => 0
  end.

Definition skipSpace (s : string) : string := Str.from (spaceEnd s) s.

(** The index at which the loop of [expectToken] stops. *)
Fixpoint tokenEnd (s : string) : nat :=
  match s with
  | String c s' =>
      if (N.land (octetTypes c) isToken =? 0)%N then 0 else S (tokenEnd s')
  | EmptyString => 0
  end.

Definition expectToken (s : string) : string * string :=
  let i := tokenEnd s in (Str.upto i s, Str.from i s).

(** [copy(p, src)]: the destination after the copy and the number of bytes
    copied. *)
Definition copy (p src : list ascii) : list ascii * nat :=
  let n := Nat.min (length p) (length src) in
  (take n src ++ drop n p, n).

(** [p[j] = b], with Go's bounds check. *)
Definition store (p : list ascii) (j : nat) (b : ascii) : outcome (list ascii) :=
  if decide (j < length p) then Ok (<[j:=b]> p) else IndexOutOfRange j (length p).

(** The inner loop of [expectTokenOrQuoted]: [rest] is [s[i:]] for the
    running index [i]; [p], [j] and [escape] are the loop's variables. *)
Fixpoint unescape (rest : string) (escape : bool) (p : list ascii) (j : nat)
  : outcome (string * string) :=
  match rest with
  | EmptyString => Ok (EmptyString, EmptyString)
  | String b rest' =>
      if escape then
        match store p j b with
        | Ok p' => unescape rest' false p' (S j)
        | IndexOutOfRange i n => IndexOutOfRange i n
        end
      else if decide (b = backslash) then unescape rest' true p j
      else if decide (b = dquote) then Ok (Str.of_bytes (take j p), rest')
      else
        match store p j b with
        | Ok p' => unescape rest' false p' (S j)
        | IndexOutOfRange i n => IndexOutOfRange i n
        end
  end.

(** The outer loop of [expectTokenOrQuoted] over [s] (the input after its
    opening quote): [rest] is [s[i:]].  At a backslash the inner loop starts
    at index [i + i], as the statement [i += i] of the source sets it. *)
Fixpoint quoted (s : string) (i : nat) (rest : string) : outcome (string * string) :=
  match rest with
  | EmptyString => Ok (EmptyString, EmptyString)
  | String c rest' =>
      if decide (c = dquote) then Ok (Str.upto i s, rest')
      else if decide (c = backslash) then
        let p := replicate (String.length s - 1) "000"%char in
        let '(p, j) := copy p (Str.bytes (Str.upto i s)) in
        unescape (Str.from (i + i) s) true p j
      else quoted s (S i) rest'
  end.

Definition expectTokenOrQuoted (s : string) : outcome (string * string) :=
  match s with
  | String c s' =>
      if decide (c = dquote) then quoted s' 0 s' else Ok (expectToken s)
  | EmptyString => Ok (expectToken s)
  end.

(** ** Lengths of the remainders (termination of the parameter loop) *)

Lemma from_length n s : String.length (Str.from n s) ≤ String.length s.
Proof.
  revert s. induction n as [|n IH]; intros [|c s]; simpl; try lia.
  specialize (IH s). lia.
Qed.

Lemma skipSpace_length s : String.length (skipSpace s) ≤ String.length s.
Proof. apply from_length. Qed.

Lemma expectToken_length s tok rest :
  expectToken s = (tok, rest) → String.length rest ≤ String.length s.
Proof. unfold expectToken. intros [= _ <-]. apply from_length. Qed.

Lemma unescape_length rest escape p j v r :
  unescape rest escape p j = Ok (v, r) → String.length r ≤ String.length rest.
Proof.
  revert escape p j. induction rest as [|b rest IH]; intros escape p j; simpl.
  - intros [= _ <-]. simpl. lia.
  - destruct escape.
    + destruct (store p j b); [|done]. intros Hu%IH. lia.
    + repeat case_decide.
      * intros Hu%IH. lia.
      * intros [= _ <-]. lia.
      * destruct (store p j b); [|done]. intros Hu%IH. lia.
Qed.

Lemma quoted_length s i rest v r :
  String.length rest ≤ String.length s →
  quoted s i rest = Ok (v, r) → String.length r ≤ String.length s.
Proof.
  revert i. induction rest as [|c rest IH]; intros i Hle; simpl.
  - intros [= _ <-]. simpl. lia.
  - simpl in Hle. repeat case_decide.
    + intros [= _ <-]. lia.
    + intros Hu%unescape_length.
      pose proof (from_length (i + i) s). lia.
    + apply IH. lia.
Qed.

Lemma expectTokenOrQuoted_length s v r :
  expectTokenOrQuoted s = Ok (v, r) → String.length r ≤ String.length s.
Proof.
  destruct s as [|c s]; unfold expectTokenOrQuoted.
  - intros [= _ <-]. simpl. lia.
  - case_decide.
    + intros Hu%quoted_length; simpl; lia.
    + intros Hu. apply (expectToken_length (String c s) v). congruence.
Qed.

Lemma HasPrefix_from1_length s (c : ascii) :
  Str.HasPrefix s (String c EmptyString) = true →
  String.length (Str.from 1 s) < String.length s.
Proof. destruct s as [|c' s]; simpl; [done|]. destruct s; simpl; lia. Qed.

(** ** The challenge parser *)

Definition inspect {A} (a : A) : {b : A | a = b} := exist _ a eq_refl.

(** The loop [for strings.HasPrefix(s, ",")] of [parseValueAndParams]; each
    [Ok params] before the last clause is one of the loop's [return]s. *)
Equations? paramsLoop (s : string) (params : gmap string string)
  : outcome (gmap string string) by wf (String.length s) lt :=
  paramsLoop s params with inspect (Str.HasPrefix s ",") => {
    | exist _ false _ := Ok params
    | exist _ true Hcomma
        with inspect (expectToken (skipSpace (Str.from 1 s))) => {
      | exist _ (pkey, s1) Hkey with inspect (Str.is_empty pkey) => {
        | exist _ true _ := Ok params
        | exist _ false _ with inspect (Str.HasPrefix s1 "=") => {
          | exist _ false _ := Ok params
          | exist _ true Heq
              with inspect (expectTokenOrQuoted (Str.from 1 s1)) => {
            | exist _ (IndexOutOfRange i n) _ := IndexOutOfRange i n
            | exist _ (Ok (pvalue, s2)) Hval
                with inspect (Str.is_empty pvalue) => {
              | exist _ true _ := Ok params
              | exist _ false _ :=
                  paramsLoop (skipSpace s2)
                             (<[Str.ToLower pkey := pvalue]> params) } } } } } }.
Proof.
  change (match s with EmptyString => s | String _ s' => s' end)
    with (Str.from 1 s) in *.
  set (s1 := Str.from (tokenEnd _) _) in *.
  change (match s1 with EmptyString => s1 | String _ s' => s' end)
    with (Str.from 1 s1) in *.
  apply HasPrefix_from1_length in Hcomma.
  apply expectTokenOrQuoted_length in Hval.
  pose proof (from_length (tokenEnd (skipSpace (Str.from 1 s)))
                (skipSpace (Str.from 1 s))).
  pose proof (skipSpace_length (Str.from 1 s)).
  pose proof (skipSpace_length s2).
  pose proof (from_length 1 s1). subst s1. lia.
Qed.

Definition parseValueAndParams (header : string)
  : outcome (string * gmap string string) :=
  let params : gmap string string := ∅ in
  let '(value, s) := expectToken header in
  if Str.is_empty value then Ok (value, params) else
  let value := Str.ToLower value in
  let s := ("," +:+ skipSpace s)%string in
  match paramsLoop s params with
  | Ok params => Ok (value, params)
  | IndexOutOfRange i n => IndexOutOfRange i n
  end.

Record authChallenge : Type := {
  Scheme : string;
  Parameters : gmap string string;
}.

Record bearerAuthChallenge : Type := {
  Realm : string;
  Service : string;
  Scope : string;
}.

(** The loop of [parseAuthHeader] over the values of one header field, in
    their order; [challenges] is the slice built so far. *)
Fixpoint parseAuthValues (values : list string) (challenges : list authChallenge)
  : outcome (list authChallenge) :=
  match values with
  | [] => Ok challenges
  | h :: values' =>
      match parseValueAndParams h with
      | Ok (v, p) =>
          if Str.is_empty v then parseAuthValues values' challenges
          else parseAuthValues values'
                 (challenges ++ [{| Scheme := v; Parameters := p |}])
      | IndexOutOfRange i n => IndexOutOfRange i n
      end
  end.

(** [m[key]] on a Go map: the zero value when the key is absent. *)
Definition index_string (m : gmap string string) (key : string) : string :=
  default EmptyString (m !! key).
Definition index_values (m : gmap string (list string)) (key : string)
  : list string :=
  default [] (m !! key).

(** ** Errors *)

Module HttpError.
Record t : Type := {
  Status : string;
  URL : string;
}.
End HttpError.

(** A Go [error]: an [HttpError] of this program, or an error of a library
    (known by its message only). *)
Inductive error : Type :=
| ErrHttp (h : HttpError.t)
| ErrLib (msg : string).

(** ** Response bodies *)

Module Body.
(** A response body: the bytes a full read yields and the error, if any,
    the read ends with. *)
Record t : Type := {
  data : list ascii;
  failure : option error;
}.

(** [io.ReadAll(body)] *)
Definition ReadAll (b : t) : list ascii * option error := (data b, failure b).
End Body.

(** ** The library functions the program calls

    [net/url], [net/http], [encoding/base64] and [encoding/json] are not part
    of the repository; the program is verified for every implementation of
    the functions it calls.  A function returning [(v, err)] of which the
    program reads [v] only when [err == nil] is a sum. *)
Class GoLib (url_URL : Type) : Type := {
  (** [url.Parse(s)] *)
  url_Parse : string → url_URL + error;
  (** [u.String()] *)
  url_String : url_URL → string;
  (** [u.Query()] *)
  url_Query : url_URL → gmap string (list string);
  (** [q.Encode()] *)
  url_Encode : gmap string (list string) → string;
  (** [u.RawQuery = raw] *)
  url_SetRawQuery : url_URL → string → url_URL;
  (** the [URL] field of the request [http.NewRequest(_, s, _)] builds, or
      its error *)
  http_RequestURL : string → url_URL + error;
  (** [http.CanonicalHeaderKey(key)] *)
  http_CanonicalHeaderKey : string → string;
  (** [base64.StdEncoding.EncodeToString([]byte(s))] *)
  base64_EncodeToString : string → string;
  (** [json.NewDecoder(body).Decode(&authToken)], then [authToken.Token] *)
  json_DecodeToken : Body.t → string + error;
}.

(** ** Requests and responses *)

Module Header.
Section Header.
Context `{GoLib url_URL}.

(** An [http.Header] is a [map[string][]string], a
    [gmap string (list string)]. *)

(** [h.Get(key)] *)
Definition Get (h : gmap string (list string)) (key : string) : string :=
  match index_values h (http_CanonicalHeaderKey key) with
  | [] => EmptyString
  | v :: _ => v
  end.

(** [h.Set(key, value)] *)
Definition Set_ (h : gmap string (list string)) (key value : string)
  : gmap string (list string) :=
  <[http_CanonicalHeaderKey key := [value]]> h.
End Header.
End Header.

(** [url.Values.Set(key, value)] *)
Definition Values_Set (q : gmap string (list string)) (key value : string)
  : gmap string (list string) :=
  <[key := [value]]> q.

Module Request.
Section Request.
Context {url_URL : Type}.

Record t : Type := {
  Method : string;
  URL : url_URL;
  Header : gmap string (list string);
  Body : option (list ascii);
}.

Context `{!GoLib url_URL}.

(** [req.Header.Set(key, value)] *)
Definition HeaderSet (req : t) (key value : string) : t :=
  {| Method := Method req; URL := URL req;
     Header := Header.Set_ (Header req) key value; Body := Body req |}.

(** [http.NewRequest(method, url, body)] for the valid methods [GET] and
    [PUT]. *)
Definition New (method url : string) (body : option (list ascii)) : t + error :=
  match http_RequestURL url with
  | inl u => inl {| Method := method; URL := u; Header := ∅; Body := body |}
  | inr e => inr e
  end.

(** [req.SetBasicAuth(username, password)] *)
Definition SetBasicAuth (req : t) (username password : string) : t :=
  HeaderSet req "Authorization"
    ("Basic " +:+ base64_EncodeToString (username +:+ ":" +:+ password)).
End Request.
#[global] Arguments t : clear implicits.
End Request.

Module Response.
Record t : Type := {
  Status : string;
  StatusCode : Z;
  Header : gmap string (list string);
  Body : Body.t;
}.
End Response.

Definition StatusOK : Z := 200.
Definition StatusCreated : Z := 201.
Definition StatusUnauthorized : Z := 401.

(** [parseAuthHeader]: the challenges of the [WWW-Authenticate] values. *)
Definition parseAuthHeader `{GoLib url_URL} (header : gmap string (list string))
  : outcome (list authChallenge) :=
  parseAuthValues
    (index_values header (http_CanonicalHeaderKey "WWW-Authenticate")) [].


(** ** Programs that call the network

    The transports and [ReTag] are programs over three calls: a round trip
    through the wrapped [http.RoundTripper], [Do] on an [http.Client], and
    closing a response body.  A round trip answers with Go's pair
    [(resp, err)], either of which may be nil; [Do] answers with a response
    or an error ([Do] never returns a nil response with a nil error, and the
    program ignores the response it returns with an error). *)

(** What [RoundTrip] returns: the pair [(resp, err)]. *)
Abbreviation roundTripResult := (option Response.t * option error)%type.

Section Programs.
Context `{GoLib url_URL}.

Inductive call : Type → Type :=
| WrappedRoundTrip (req : Request.t url_URL) : call roundTripResult
| ClientDo (req : Request.t url_URL) : call (Response.t + error)
| BodyClose (resp : Response.t) : call unit.

Inductive Prog (A : Type) : Type :=
| Ret (a : A)
| Vis {X : Type} (c : call X) (k : X → Prog A).
#[global] Arguments Ret {A} a.
#[global] Arguments Vis {A X} c k.

Fixpoint bind {A B : Type} (p : Prog A) (f : A → Prog B) : Prog B :=
  match p with
  | Ret a => f a
  | Vis c k => Vis c (λ x, bind (k x) f)
  end.

Definition perform {X : Type} (c : call X) : Prog X := Vis c Ret.

#[global] Instance Prog_bind : MBind Prog := λ A B f p, bind p f.
#[global] Instance Prog_ret : MRet Prog := λ A a, Ret a.

(** *** Running a program against a network *)

(** What a run leaves behind: each call with its answer, in order. *)
Inductive event : Type :=
| EvRoundTrip (req : Request.t url_URL) (answer : roundTripResult)
| EvDo (req : Request.t url_URL) (answer : Response.t + error)
| EvClose (resp : Response.t).

(** A network with state [W]: how it answers a round trip and a [Do]. *)
Record network (W : Type) : Type := {
  onRoundTrip : Request.t url_URL → W → roundTripResult * W;
  onDo : Request.t url_URL → W → (Response.t + error) * W;
}.
#[global] Arguments onRoundTrip {W} _ _ _.
#[global] Arguments onDo {W} _ _ _.

Definition answer {W X : Type} (net : network W) (c : call X) (w : W)
  : X * W * event :=
  match c in call X return X * W * event with
  | WrappedRoundTrip req =>
      let '(a, w') := onRoundTrip net req w in (a, w', EvRoundTrip req a)
  | ClientDo req =>
      let '(a, w') := onDo net req w in (a, w', EvDo req a)
  | BodyClose resp => (tt, w, EvClose resp)
  end.

Fixpoint run {W A : Type} (net : network W) (p : Prog A) (w : W)
  : A * W * list event :=
  match p with
  | Ret a => (a, w, [])
  | Vis c k =>
      let '(x, w', e) := answer net c w in
      let '(a, w'', tr) := run net (k x) w' in
      (a, w'', e :: tr)
  end.

Definition isRoundTrip (e : event) : bool :=
  match e with EvRoundTrip _ _ => true | _ => false end.
Definition isDo (e : event) : bool :=
  match e with EvDo _ _ => true | _ => false end.

End Programs.
Arguments Prog : clear implicits.
Arguments event : clear implicits.
Arguments network : clear implicits.

(** ** The Basic-Auth injector *)

Module basicAuthTransport.
Section basicAuthTransport.
Context `{GoLib url_URL}.

(** The fields of the struct; [Wrapped] is the target of
    [WrappedRoundTrip]. *)
Record t : Type := {
  URL : string;
  Username : string;
  Password : string;
}.

Definition RoundTrip (b : t) (req : Request.t url_URL)
  : Prog url_URL roundTripResult :=
  let req :=
    if Str.HasPrefix (url_String (Request.URL req)) (URL b) then
      if negb (Str.is_empty (Username b)) || negb (Str.is_empty (Password b))
      then Request.SetBasicAuth req (Username b) (Password b)
      else req
    else req in
  '(resp, err) ← perform (WrappedRoundTrip req);
  mret (resp, err).

End basicAuthTransport.
End basicAuthTransport.

(** ** The bearer retry transport *)

Module tokenAuthTransport.
Section tokenAuthTransport.
Context `{GoLib url_URL}.

Record t : Type := {
  Username : string;
  Password : string;
}.

(** The scan of [RoundTrip] for the first challenge of scheme [bearer]. *)
Fixpoint bearerChallenge (challenges : list authChallenge) : option authChallenge :=
  match challenges with
  | [] => None
  | challenge :: challenges' =>
      if decide (Scheme challenge = "bearer") then Some challenge
      else bearerChallenge challenges'
  end.

Definition auth (t : t) (challenge : bearerAuthChallenge)
  : Prog url_URL (string * option Response.t * option error) :=
  match url_Parse (Realm challenge) with
  | inr err => mret (EmptyString, None, Some err)
  | inl realmUrl =>
      let q := url_Query realmUrl in
      let q := Values_Set q "service" (Service challenge) in
      let q := if negb (Str.is_empty (Scope challenge))
               then Values_Set q "scope" (Scope challenge) else q in
      let realmUrl := url_SetRawQuery realmUrl (url_Encode q) in
      match Request.New "GET" (url_String realmUrl) None with
      | inr err => mret (EmptyString, None, Some err)
      | inl authRequest =>
          let authRequest :=
            if negb (Str.is_empty (Username t)) || negb (Str.is_empty (Password t))
            then Request.SetBasicAuth authRequest (Username t) (Password t)
            else authRequest in
          r ← perform (ClientDo authRequest);
          match r with
          | inr err => mret (EmptyString, None, Some err)
          | inl response =>
              (* [err] is the nil error [client.Do] has returned *)
              let err : option error := None in
              if negb (Response.StatusCode response =? StatusOK)%Z
              then mret (EmptyString, Some response, err)
              else
                match json_DecodeToken (Response.Body response) with
                | inr err =>
                    perform (BodyClose response);;
                    mret (EmptyString, None, Some err)
                | inl token =>
                    perform (BodyClose response);;
                    mret (token, None, None)
                end
          end
      end
  end.

Definition authAndRetry (t : t) (challenge : bearerAuthChallenge)
    (req : Request.t url_URL) : Prog url_URL roundTripResult :=
  '(token, authResp, err) ← auth t challenge;
  match err with
  | Some _ => mret (authResp, err)
  | None =>
      let req := Request.HeaderSet req "Authorization" ("Bearer " +:+ token) in
      '(resp, err) ← perform (WrappedRoundTrip req);
      mret (resp, err)
  end.

(** A panic of the parser is a panic of [RoundTrip]. *)
Definition RoundTrip (t : t) (req : Request.t url_URL)
  : Prog url_URL (outcome roundTripResult) :=
  '(resp, err) ← perform (WrappedRoundTrip req);
  match err with
  | Some _ => mret (Ok (resp, err))
  | None =>
      match resp with
      | Some r =>
          if (Response.StatusCode r =? StatusUnauthorized)%Z then
            (* we might need to auth and restart *)
            match parseAuthHeader (Response.Header r) with
            | IndexOutOfRange i n => mret (IndexOutOfRange i n)
            | Ok challenges =>
                match bearerChallenge challenges with
                | None => mret (Ok (resp, err))
                | Some bearerChallenge =>
                    (* we have a bearerChallenge *)
                    perform (BodyClose r);;
                    res ← authAndRetry t
                      {| Realm :=
                           index_string (Parameters bearerChallenge) "realm";
                         Service :=
                           index_string (Parameters bearerChallenge) "service";
                         Scope :=
                           index_string (Parameters bearerChallenge) "scope" |}
                      req;
                    mret (Ok res)
                end
            end
          else mret (Ok (resp, err))
      | None => mret (Ok (resp, err))
      end
  end.

End tokenAuthTransport.
End tokenAuthTransport.

(** ** The registry client *)

Definition dockerManifestV2MIME : string :=
  "application/vnd.docker.distribution.manifest.v2+json".
Definition dockerManifestListV2MIME : string :=
  "application/vnd.docker.distribution.manifest.list.v2+json".
Definition ociManifestV1MIME : string :=
  "application/vnd.oci.image.manifest.v1+json".
Definition ociIndexV1MIME : string :=
  "application/vnd.oci.image.index.v1+json".

Module Registry.
Section Registry.
Context `{GoLib url_URL}.

(** The struct's [URL]; its [Client] is the target of [ClientDo]. *)
Record t : Type := {
  URL : string;
}.

(** [fmt.Sprintf] of the one path template [ReTag] uses,
    [/v2/%s/manifests/%s]. *)
Definition manifestsPath (repo tag : string) : string :=
  "/v2/" +:+ repo +:+ "/manifests/" +:+ tag.

Definition url (r : t) (pathSuffix : string) : string := URL r +:+ pathSuffix.

Definition ReTag (r : t) (repo oldTag newTag : string)
  : Prog url_URL (option error) :=
  let sourceUrl := url r (manifestsPath repo oldTag) in
  match Request.New "GET" sourceUrl None with
  | inr err => mret (Some err)
  | inl sourceReq =>
      let sourceReq :=
        Request.HeaderSet sourceReq "Accept"
          (Str.Join [ociManifestV1MIME; ociIndexV1MIME;
                     dockerManifestListV2MIME; dockerManifestV2MIME] ", ") in
      res ← perform (ClientDo sourceReq);
      match res with
      | inr err => mret (Some err)
      | inl sourceResp =>
          (* from here on every return first runs the deferred close *)
          if negb (Response.StatusCode sourceResp =? StatusOK)%Z then
            perform (BodyClose sourceResp);;
            mret (Some (ErrHttp
                    {| HttpError.Status := Response.Status sourceResp;
                       HttpError.URL := sourceUrl |}))
          else
            let receivedMIME :=
              Header.Get (Response.Header sourceResp) "Content-Type" in
            match Body.ReadAll (Response.Body sourceResp) with
            | (_, Some err) => perform (BodyClose sourceResp);; mret (Some err)
            | (manifest, None) =>
                let destUrl := url r (manifestsPath repo newTag) in
                match Request.New "PUT" destUrl (Some manifest) with
                | inr err => perform (BodyClose sourceResp);; mret (Some err)
                | inl destReq =>
                    let destReq :=
                      Request.HeaderSet destReq "Content-Type" receivedMIME in
                    res ← perform (ClientDo destReq);
                    match res with
                    | inr err =>
                        perform (BodyClose sourceResp);; mret (Some err)
                    | inl destResp =>
                        if negb (Response.StatusCode destResp =? StatusCreated)%Z
                        then
                          perform (BodyClose destResp);;
                          perform (BodyClose sourceResp);;
                          mret (Some (ErrHttp
                                  {| HttpError.Status := Response.Status destResp;
                                     HttpError.URL := destUrl |}))
                        else
                          perform (BodyClose destResp);;
                          perform (BodyClose sourceResp);;
                          mret None
                    end
                end
            end
      end
  end.

End Registry.
End Registry.

(** ** The transports of [NewRegistry]

    The client of a registry sends its requests through the Basic-Auth
    injector; what the injector wraps is the bearer retry transport, and
    what that one wraps is [http.DefaultTransport]. *)

Section Wiring.
Context `{GoLib url_URL}.

(** A program whose [Wrapped] is the transport [inner]: each of its round
    trips runs [inner], and a panic of [inner] ends the program.  The calls
    that remain are those of [inner] and the other calls of the program. *)
Fixpoint over {A : Type}
    (inner : Request.t url_URL → Prog url_URL (outcome roundTripResult))
    (p : Prog url_URL A) : Prog url_URL (outcome A) :=
  match p with
  | Ret a => Ret (Ok a)
  | Vis c k =>
      match c in call X return (X → Prog url_URL A) → Prog url_URL (outcome A)
      with
      | WrappedRoundTrip req => λ k,
          bind (inner req)
               (λ r, match r with
                     | Ok a => over inner (k a)
                     | IndexOutOfRange i n => Ret (IndexOutOfRange i n)
                     end)
      | ClientDo req => λ k, Vis (ClientDo req) (λ x, over inner (k x))
      | BodyClose resp => λ k, Vis (BodyClose resp) (λ x, over inner (k x))
      end k
  end.

(** What [NewRegistry] builds: the registry, the transport of its client
    and the transport that one wraps. *)
Record registryClient : Type := {
  registryOf : Registry.t;
  authTransport : basicAuthTransport.t;
  wrappedTransport : tokenAuthTransport.t;
}.

Definition NewRegistry (url username password : string) : registryClient :=
  {| registryOf := {| Registry.URL := url |};
     authTransport :=
       {| basicAuthTransport.URL := url;
          basicAuthTransport.Username := username;
          basicAuthTransport.Password := password |};
     wrappedTransport :=
       {| tokenAuthTransport.Username := username;
          tokenAuthTransport.Password := password |} |}.

(** [authTransport.RoundTrip(req)] with the wrapped transports in place. *)
Definition authRoundTrip (c : registryClient) (req : Request.t url_URL)
  : Prog url_URL (outcome roundTripResult) :=
  over (tokenAuthTransport.RoundTrip (wrappedTransport c))
       (basicAuthTransport.RoundTrip (authTransport c) req).

End Wiring.

(** ** The command

    [mainCmd] of [main.go].  The environment is a map from the names of the
    variables that are set to their values; what [fmt.Printf] writes to the
    standard output is returned with the error.  The package [arguments] is
    not among the sources: [mainCmd] is modelled for every function
    [arguments.Parse]. *)

Definition dockerRegistryEnv : string := "DOCKER_REGISTRY".
Definition dockerUsernameEnv : string := "DOCKER_USER".
Definition dockerPasswordEnv : string := "DOCKER_PASS".
Definition defaultRegistry : string := "https://index.docker.io/".

(** [os.LookupEnv(key)] *)
Definition LookupEnv (env : gmap string string) (key : string) : string * bool :=
  match env !! key with
  | Some value => (value, true)
  | None => (EmptyString, false)
  end.

(** What a call of [mainCmd] ends with: its error and the text it has
    printed, or the panic of [args[1:]] on an empty [args]. *)
Inductive ended : Type :=
| Returned (err : option error) (printed : string)
| SliceOutOfRange (low len : nat).

Section Command.
Context `{GoLib url_URL}.
Variable arguments_Parse : list string → string * string * string + error.

Definition mainCmd (env : gmap string string) (args : list string)
  : Prog url_URL ended :=
  match args with
  | [] => mret (SliceOutOfRange 1 0)
  | _ :: args1 =>
      match arguments_Parse args1 with
      | inr err => mret (Returned (Some err) EmptyString)
      | inl (repository, oldTag, newTag) =>
          (* an empty user name or password is allowed *)
          let '(username, _) := LookupEnv env dockerUsernameEnv in
          let '(password, _) := LookupEnv env dockerPasswordEnv in
          let '(registryUrl, found) := LookupEnv env dockerRegistryEnv in
          let registryUrl :=
            if negb found || Str.is_empty registryUrl then defaultRegistry
            else registryUrl in
          let reg := NewRegistry registryUrl username password in
          err ← Registry.ReTag (registryOf reg) repository oldTag newTag;
          match err with
          | Some _ => mret (Returned err EmptyString)
          | None =>
              let separator :=
                if Str.HasPrefix oldTag "sha256:" then "@" else ":" in
              mret (Returned None
                      ("Retagged " +:+ repository +:+ separator +:+ oldTag
                         +:+ " as " +:+ repository +:+ ":" +:+ newTag
                         +:+ String LF EmptyString))
          end
      end
  end.
End Command.

(** ** An implementation of the library functions, to run the model

    Enough of [net/url], [net/http], [encoding/base64] and [encoding/json]
    to evaluate the program on examples: a URL is a path and a raw query,
    neither with escapes to decode or parts to normalise, and a token
    document is the object with the one field [token] and no white space. *)

Module Sim.

Record URL : Type := {
  path : string;
  RawQuery : string;
}.

(** [s] up to the first byte [c], and what follows that byte. *)
Fixpoint cut (c : ascii) (s : string) : string * string :=
  match s with
  | EmptyString => (EmptyString, EmptyString)
  | String b s' =>
      if decide (b = c) then (EmptyString, s')
      else let '(l, r) := cut c s' in (String b l, r)
  end.

Definition Parse (s : string) : URL + error :=
  let '(p, q) := cut "?" s in inl {| path := p; RawQuery := q |}.

(** The pairs [key=value] of a raw query, separated by [&]; [n] bounds
    their number. *)
Fixpoint pairs (n : nat) (raw : string) : list (string * string) :=
  match n with
  | 0 => []
  | S n' =>
      if Str.is_empty raw then []
      else let '(kv, rest) := cut "&" raw in cut "=" kv :: pairs n' rest
  end.

(** [u.Query()], for a raw query without escapes. *)
Definition Query (u : URL) : gmap string (list string) :=
  foldl (λ q kv, <[kv.1 := index_values q kv.1 ++ [kv.2]]> q) ∅
        (pairs (String.length (RawQuery u)) (RawQuery u)).

Definition String_ (u : URL) : string :=
  if Str.is_empty (RawQuery u) then path u else path u +:+ "?" +:+ RawQuery u.

Definition hexDigit (n : N) : ascii :=
  if (n <? 10)%N then ascii_of_N (48 + n) else ascii_of_N (55 + n).

Definition unreserved (c : ascii) : bool :=
  let n := N_of_ascii c in
  ((48 <=? n) && (n <=? 57) || (65 <=? n) && (n <=? 90)
   || (97 <=? n) && (n <=? 122)
   || bool_decide (c ∈ ["-"; "_"; "."; "~"]%char))%N.

(** [url.QueryEscape] *)
Fixpoint QueryEscape (s : string) : string :=
  match s with
  | EmptyString => EmptyString
  | String c s' =>
      if unreserved c then String c (QueryEscape s')
      else if decide (c = SP) then String "+" (QueryEscape s')
      else
        let n := N_of_ascii c in
        String "%" (String (hexDigit (n / 16)) (String (hexDigit (n mod 16))
          (QueryEscape s')))
  end.

Fixpoint insertByKey (kv : string * list string)
    (l : list (string * list string)) : list (string * list string) :=
  match l with
  | [] => [kv]
  | kv' :: l' =>
      if String.leb kv.1 kv'.1 then kv :: l else kv' :: insertByKey kv l'
  end.

(** [Values.Encode]: [key=value] pairs joined by [&], sorted by key. *)
Definition Encode (q : gmap string (list string)) : string :=
  Str.Join
    (flat_map
       (λ kv, (λ v, QueryEscape kv.1 +:+ "=" +:+ QueryEscape v) <$> kv.2)
       (foldr insertByKey [] (map_to_list q)))
    "&".

Definition upper (c : ascii) : ascii :=
  let n := N_of_ascii c in
  if ((97 <=? n) && (n <=? 122))%N then ascii_of_N (n - 32) else c.

Fixpoint canonical (up : bool) (s : string) : string :=
  match s with
  | EmptyString => EmptyString
  | String c s' =>
      String (if up then upper c else Str.lower c)
             (canonical (bool_decide (c = "-"%char)) s')
  end.

Fixpoint validHeaderField (s : string) : bool :=
  match s with
  | EmptyString => true
  | String c s' =>
      negb (N.land (octetTypes c) isToken =? 0)%N && validHeaderField s'
  end.

(** [http.CanonicalHeaderKey]: the first letter and any letter after a
    hyphen in upper case, the others in lower case; a key with a byte that
    is not a token byte is returned as it is. *)
Definition CanonicalHeaderKey (s : string) : string :=
  if validHeaderField s then canonical true s else s.

Definition b64digit (n : N) : ascii :=
  if (n <? 26)%N then ascii_of_N (65 + n)
  else if (n <? 52)%N then ascii_of_N (71 + n)
  else if (n <? 62)%N then ascii_of_N (n - 4)
  else if (n =? 62)%N then "+"%char else "/"%char.

Fixpoint b64 (l : list N) : list ascii :=
  match l with
  | a :: b :: c :: l' =>
      let n := (a * 65536 + b * 256 + c)%N in
      b64digit (n / 262144) :: b64digit (n / 4096 mod 64)
        :: b64digit (n / 64 mod 64) :: b64digit (n mod 64) :: b64 l'
  | [a; b] =>
      let n := (a * 65536 + b * 256)%N in
      [b64digit (n / 262144); b64digit (n / 4096 mod 64);
       b64digit (n / 64 mod 64); "="%char]
  | [a] =>
      let n := (a * 65536)%N in
      [b64digit (n / 262144); b64digit (n / 4096 mod 64); "="%char; "="%char]
  | [] => []
  end.

Definition EncodeToString (s : string) : string :=
  Str.of_bytes (b64 (N_of_ascii <$> Str.bytes s)).

(** The bytes of the token document up to the value of [token]. *)
Definition tokenOpen : list ascii :=
  ["{"%char; dquote] ++ Str.bytes "token" ++ [dquote; ":"%char; dquote].

Fixpoint untilQuote (l : list ascii) : option (list ascii) :=
  match l with
  | [] => None
  | c :: l' =>
      if decide (c = dquote) then
        if decide (l' = ["}"%char]) then Some [] else None
      else (c ::.) <$> untilQuote l'
  end.

Definition DecodeToken (body : Body.t) : string + error :=
  match Body.failure body with
  | Some err => inr err
  | None =>
      if decide (take (length tokenOpen) (Body.data body) = tokenOpen) then
        match untilQuote (drop (length tokenOpen) (Body.data body)) with
        | Some tok => inl (Str.of_bytes tok)
        | None => inr (ErrLib "invalid token document")
        end
      else inr (ErrLib "invalid token document")
  end.

#[export] Instance lib : GoLib URL := {|
  url_Parse := Parse;
  url_String := String_;
  url_Query := Query;
  url_Encode := Encode;
  url_SetRawQuery := λ u raw, {| path := path u; RawQuery := raw |};
  http_RequestURL := Parse;
  http_CanonicalHeaderKey := CanonicalHeaderKey;
  base64_EncodeToString := EncodeToString;
  json_DecodeToken := DecodeToken;
|}.

(** A stand-in for [arguments.Parse], for the command line
    [repository oldTag newTag]. *)
Definition ParseArgs (args : list string) : string * string * string + error :=
  match args with
  | [repository; oldTag; newTag] => inl (repository, oldTag, newTag)
  | _ => inr (ErrLib "usage")
  end.

(** A network that answers from two scripts, one for the round trips and
    one for the token exchanges; its state counts the answers given. *)
Definition scripted (trips : list roundTripResult)
    (exchanges : list (Response.t + error)) : network URL (nat * nat) :=
  {| onRoundTrip := λ _ w,
       (default (None, Some (ErrLib "EOF")) (trips !! w.1), (S w.1, w.2));
     onDo := λ _ w,
       (default (inr (ErrLib "EOF")) (exchanges !! w.2), (w.1, S w.2)) |}.

Definition response (code : Z) (status : string)
    (header : list (string * list string)) (body : string) : Response.t :=
  {| Response.Status := status; Response.StatusCode := code;
     Response.Header := list_to_map header;
     Response.Body := {| Body.data := Str.bytes body; Body.failure := None |} |}.

End Sim.

(** * The vocabulary of the statements *)

(** ** Tokens and quoted values *)

Definition isTokenByte (c : ascii) : bool :=
  negb (N.land (octetTypes c) isToken =? 0)%N.

Definition isSpaceByte (c : ascii) : bool :=
  negb (N.land (octetTypes c) isSpace =? 0)%N.

Fixpoint allBytes (P : ascii → bool) (s : string) : bool :=
  match s with
  | EmptyString => true
  | String c s' => P c && allBytes P s'
  end.

(** A token: one byte or more, all of them token bytes. *)
Definition token (s : string) : bool :=
  negb (Str.is_empty s) && allBytes isTokenByte s.

(** The text of a quoted value that needs no escape: one byte or more,
    none of them a quote or a backslash. *)
Definition plainByte (c : ascii) : bool :=
  negb (bool_decide (c = dquote)) && negb (bool_decide (c = backslash)).
Definition plain (s : string) : bool :=
  negb (Str.is_empty s) && allBytes plainByte s.

(** [quote v] is [v] between double quotes. *)
Definition quote (v : string) : string :=
  String dquote (v +:+ String dquote EmptyString).

(** The decoding of a quoted value in the words of the specification, to
    compare the code with: after the opening quote, a backslash and the
    byte that follows it stand for that byte, any other byte stands for
    itself, and the value ends at the first quote that is not escaped.
    The result is the value and the text after the closing quote. *)
Fixpoint specUnquote (s : string) : option (string * string) :=
  match s with
  | EmptyString => None
  | String c s' =>
      if decide (c = dquote) then Some (EmptyString, s')
      else if decide (c = backslash) then
        match s' with
        | EmptyString => None
        | String d s'' =>
            (λ vr : string * string, (String d vr.1, vr.2)) <$> specUnquote s''
        end
      else (λ vr : string * string, (String c vr.1, vr.2)) <$> specUnquote s'
  end.

(** The token characters of RFC 7230: the digits, the letters and fifteen
    marks. *)
Definition tchars : string :=
  "!#$%&'*+-.^_`|~0123456789ABCDEFGHIJKLMNOPQRSTUVWXYZabcdefghijklmnopqrstuvwxyz".

(** A text without a backslash. *)
Definition noBackslash (s : string) : bool :=
  allBytes (λ c, negb (bool_decide (c = backslash))) s.

(** The header of a bearer challenge, as a registry sends it. *)
Definition bearerHeader (scheme R S Sc : string) : string :=
  scheme +:+ " realm=" +:+ quote R +:+ ",service=" +:+ quote S
         +:+ ",scope=" +:+ quote Sc.

(** The text [key="value"] of one parameter. *)
Definition item (kv : string * string) : string :=
  kv.1 +:+ "=" +:+ quote kv.2.

Definition wellFormed (kv : string * string) : bool :=
  token kv.1 && plain kv.2.

(** The map after storing the parameters [ps] in their order. *)
Definition storeAll (params : gmap string string) (ps : list (string * string))
  : gmap string string :=
  foldl (λ m kv, <[Str.ToLower kv.1 := kv.2]> m) params ps.

Definition nonEmptyValues (params : gmap string string) : Prop :=
  ∀ key value, params !! key = Some value → value ≠ EmptyString.

(** The keys are tokens in lower case. *)
Definition lowerKeys (params : gmap string string) : Prop :=
  ∀ key value, params !! key = Some value →
    token key ∧ Str.ToLower key = key.

(** A challenge with a token in lower case for scheme, tokens in lower case
    for keys and no empty value. *)
Definition wellShaped (c : authChallenge) : Prop :=
  token (Scheme c) ∧ Str.ToLower (Scheme c) = Scheme c
  ∧ lowerKeys (Parameters c) ∧ nonEmptyValues (Parameters c).

(** The header [Bearer realm=r,scope=,service=s] with [r] and [s] between
    quotes and nothing between the two quotes that follow [scope=]. *)
Definition emptyScopeHeader : string :=
  "Bearer realm=" +:+ quote "r" +:+ ",scope=" +:+ quote EmptyString
    +:+ ",service=" +:+ quote "s".

(** ** Runs *)

(** The number of events of a run that satisfy [p]. *)
Definition countEvents {url_URL : Type} (p : event url_URL → bool)
    (tr : list (event url_URL)) : nat :=
  length (List.filter p tr).

(** The responses a run has received from [Do], and the responses whose
    bodies it has closed, each in the order of the run. *)
Definition received {url_URL : Type} (tr : list (event url_URL))
  : list Response.t :=
  omap (λ e, match e with EvDo _ (inl resp) => Some resp | _ => None end) tr.
Definition closed {url_URL : Type} (tr : list (event url_URL))
  : list Response.t :=
  omap (λ e, match e with EvClose resp => Some resp | _ => None end) tr.

Section Requests.
Context `{GoLib url_URL}.

(** The request of a token exchange as [auth] builds it: a GET without
    body whose only header is the Basic [Authorization] of the transport's
    credentials, or no header at all when both are empty. *)
Definition tokenRequest (t : tokenAuthTransport.t) (authRequest : Request.t url_URL)
  : Prop :=
  Request.Method authRequest = "GET"
  ∧ Request.Body authRequest = None
  ∧ Request.Header authRequest
    = if negb (Str.is_empty (tokenAuthTransport.Username t))
         || negb (Str.is_empty (tokenAuthTransport.Password t))
      then {[ http_CanonicalHeaderKey "Authorization" :=
                ["Basic " +:+ base64_EncodeToString
                   (tokenAuthTransport.Username t +:+ ":"
                      +:+ tokenAuthTransport.Password t)] ]}
      else ∅.

(** The two requests of [ReTag], for the URLs [http.NewRequest] gives
    them. *)
Definition sourceRequest (u : url_URL) : Request.t url_URL :=
  Request.HeaderSet
    {| Request.Method := "GET"; Request.URL := u; Request.Header := ∅;
       Request.Body := None |}
    "Accept"
    (Str.Join [ociManifestV1MIME; ociIndexV1MIME;
               dockerManifestListV2MIME; dockerManifestV2MIME] ", ").

Definition destRequest (u : url_URL) (sourceResp : Response.t)
  : Request.t url_URL :=
  Request.HeaderSet
    {| Request.Method := "PUT"; Request.URL := u; Request.Header := ∅;
       Request.Body := Some (Body.data (Response.Body sourceResp)) |}
    "Content-Type"
    (Header.Get (Response.Header sourceResp) "Content-Type").

(** The eight ways [ReTag] runs, one for each of its [return]s: the result
    and the events of the run. *)
Inductive retagRun (r : Registry.t) (repo oldTag newTag : string)
  : option error → list (event url_URL) → Prop :=
| retag_source_url e :
    http_RequestURL (Registry.url r (Registry.manifestsPath repo oldTag))
      = inr e →
    retagRun r repo oldTag newTag (Some e) []
| retag_get_failed u e :
    http_RequestURL (Registry.url r (Registry.manifestsPath repo oldTag))
      = inl u →
    retagRun r repo oldTag newTag (Some e) [EvDo (sourceRequest u) (inr e)]
| retag_get_status u sourceResp :
    http_RequestURL (Registry.url r (Registry.manifestsPath repo oldTag))
      = inl u →
    Response.StatusCode sourceResp ≠ StatusOK →
    retagRun r repo oldTag newTag
      (Some (ErrHttp
               {| HttpError.Status := Response.Status sourceResp;
                  HttpError.URL :=
                    Registry.url r (Registry.manifestsPath repo oldTag) |}))
      [EvDo (sourceRequest u) (inl sourceResp); EvClose sourceResp]
| retag_read_failed u sourceResp e :
    http_RequestURL (Registry.url r (Registry.manifestsPath repo oldTag))
      = inl u →
    Response.StatusCode sourceResp = StatusOK →
    Body.failure (Response.Body sourceResp) = Some e →
    retagRun r repo oldTag newTag (Some e)
      [EvDo (sourceRequest u) (inl sourceResp); EvClose sourceResp]
| retag_dest_url u sourceResp e :
    http_RequestURL (Registry.url r (Registry.manifestsPath repo oldTag))
      = inl u →
    Response.StatusCode sourceResp = StatusOK →
    Body.failure (Response.Body sourceResp) = None →
    http_RequestURL (Registry.url r (Registry.manifestsPath repo newTag))
      = inr e →
    retagRun r repo oldTag newTag (Some e)
      [EvDo (sourceRequest u) (inl sourceResp); EvClose sourceResp]
| retag_put_failed u sourceResp u' e :
    http_RequestURL (Registry.url r (Registry.manifestsPath repo oldTag))
      = inl u →
    Response.StatusCode sourceResp = StatusOK →
    Body.failure (Response.Body sourceResp) = None →
    http_RequestURL (Registry.url r (Registry.manifestsPath repo newTag))
      = inl u' →
    retagRun r repo oldTag newTag (Some e)
      [EvDo (sourceRequest u) (inl sourceResp);
       EvDo (destRequest u' sourceResp) (inr e); EvClose sourceResp]
| retag_put_status u sourceResp u' destResp :
    http_RequestURL (Registry.url r (Registry.manifestsPath repo oldTag))
      = inl u →
    Response.StatusCode sourceResp = StatusOK →
    Body.failure (Response.Body sourceResp) = None →
    http_RequestURL (Registry.url r (Registry.manifestsPath repo newTag))
      = inl u' →
    Response.StatusCode destResp ≠ StatusCreated →
    retagRun r repo oldTag newTag
      (Some (ErrHttp
               {| HttpError.Status := Response.Status destResp;
                  HttpError.URL :=
                    Registry.url r (Registry.manifestsPath repo newTag) |}))
      [EvDo (sourceRequest u) (inl sourceResp);
       EvDo (destRequest u' sourceResp) (inl destResp);
       EvClose destResp; EvClose sourceResp]
| retag_done u sourceResp u' destResp :
    http_RequestURL (Registry.url r (Registry.manifestsPath repo oldTag))
      = inl u →
    Response.StatusCode sourceResp = StatusOK →
    Body.failure (Response.Body sourceResp) = None →
    http_RequestURL (Registry.url r (Registry.manifestsPath repo newTag))
      = inl u' →
    Response.StatusCode destResp = StatusCreated →
    retagRun r repo oldTag newTag None
      [EvDo (sourceRequest u) (inl sourceResp);
       EvDo (destRequest u' sourceResp) (inl destResp);
       EvClose destResp; EvClose sourceResp].
End Requests.

(** ** A registry, its requests and its answers, for the examples *)

Module Scenario.
Import Sim.

Definition registry : Registry.t :=
  {| Registry.URL := "https://registry.example" |}.

Definition transport : tokenAuthTransport.t :=
  {| tokenAuthTransport.Username := "joshdk";
     tokenAuthTransport.Password := "hunter2" |}.

Definition injector : basicAuthTransport.t :=
  {| basicAuthTransport.URL := "https://registry.example";
     basicAuthTransport.Username := "joshdk";
     basicAuthTransport.Password := "hunter2" |}.

(** [GET https://registry.example/v2/acme/widget/manifests/1.0.0], as
    [ReTag] builds it. *)
Definition getManifest : Request.t Sim.URL :=
  {| Request.Method := "GET";
     Request.URL :=
       {| path := "https://registry.example/v2/acme/widget/manifests/1.0.0";
          RawQuery := EmptyString |};
     Request.Header :=
       {[ "Accept" :=
            [Str.Join [ociManifestV1MIME; ociIndexV1MIME;
                       dockerManifestListV2MIME; dockerManifestV2MIME] ", "] ]};
     Request.Body := None |}.

(** A GET of a URL on another host whose text begins with the registry
    URL. *)
Definition lookalike : Request.t Sim.URL :=
  {| Request.Method := "GET";
     Request.URL :=
       {| path := "https://registry.example.attacker.example/v2/";
          RawQuery := EmptyString |};
     Request.Header := ∅;
     Request.Body := None |}.

(** [GET https://auth.example/token] *)
Definition getToken : Request.t Sim.URL :=
  {| Request.Method := "GET";
     Request.URL :=
       {| path := "https://auth.example/token"; RawQuery := EmptyString |};
     Request.Header := ∅;
     Request.Body := None |}.

(** The 401 of a registry that asks for a bearer token. *)
Definition bearer401 : Response.t :=
  response 401 "401 Unauthorized"
    [("Www-Authenticate",
      [bearerHeader "Bearer" "https://auth.example/token" "registry.example"
         "repository:acme/widget:pull"])]
    EmptyString.

(** A 401 with a Basic challenge only. *)
Definition basic401 : Response.t :=
  response 401 "401 Unauthorized"
    [("Www-Authenticate", ["Basic realm=" +:+ quote "x"])] EmptyString.

(** A 401 whose Basic challenge is [realm=], a quote and a backslash. *)
Definition escape401 : Response.t :=
  response 401 "401 Unauthorized"
    [("Www-Authenticate",
      ["Basic realm=" +:+ String dquote (String backslash EmptyString)])]
    EmptyString.

(** A 401 with a Bearer challenge and, after it, the malformed value of
    [escape401]. *)
Definition mixed401 : Response.t :=
  response 401 "401 Unauthorized"
    [("Www-Authenticate",
      [bearerHeader "Bearer" "https://auth.example/token" "registry.example"
         "repository:acme/widget:pull";
       "Basic realm=" +:+ String dquote (String backslash EmptyString)])]
    EmptyString.

(** The 401 the registry answers to the resend. *)
Definition second401 : Response.t :=
  response 401 "401 Unauthorized" [] "access denied".

Definition forbidden403 : Response.t :=
  response 403 "403 Forbidden" [] EmptyString.

Definition token200 : Response.t :=
  response 200 "200 OK" []
    (Str.of_bytes (tokenOpen ++ Str.bytes "abc123" ++ [dquote; "}"%char])).

Definition notFound404 : Response.t :=
  response 404 "404 Not Found" [] EmptyString.

Definition manifest200 : Response.t :=
  response 200 "200 OK" [("Content-Type", [dockerManifestV2MIME])]
    "{schemaVersion:2}".

Definition created201 : Response.t :=
  response 201 "201 Created" [] EmptyString.

(** A 200 whose body breaks off before its end. *)
Definition broken200 : Response.t :=
  {| Response.Status := "200 OK"; Response.StatusCode := 200;
     Response.Header := {[ "Content-Type" := [dockerManifestV2MIME] ]};
     Response.Body :=
       {| Body.data := Str.bytes "{schema";
          Body.failure := Some (ErrLib "unexpected EOF") |} |}.

(** A 200 with a manifest and no [Content-Type]. *)
Definition untyped200 : Response.t :=
  response 200 "200 OK" [] "{schemaVersion:2}".

(** The command line and the environment of a retag on the registry. *)
Definition commandLine : list string :=
  ["docker-retag"; "acme/widget"; "1.0.0"; "1.0.1"].
Definition environment : gmap string string :=
  {[ "DOCKER_REGISTRY" := "https://registry.example";
     "DOCKER_USER" := "joshdk"; "DOCKER_PASS" := "hunter2" ]}.

(** The token exchange for [bearer401], with the credentials of
    [transport]. *)
Definition exchange : Request.t Sim.URL :=
  Request.SetBasicAuth
    {| Request.Method := "GET";
       Request.URL :=
         {| path := "https://auth.example/token";
            RawQuery :=
              "scope=repository%3Aacme%2Fwidget%3Apull&service=registry.example" |};
       Request.Header := ∅;
       Request.Body := None |}
    "joshdk" "hunter2".

(** [getManifest] again, under the bearer token [abc123]. *)
Definition resend : Request.t Sim.URL :=
  Request.HeaderSet getManifest "Authorization" "Bearer abc123".

(** [PUT https://registry.example/v2/acme/widget/manifests/1.0.1], as
    [ReTag] builds it from [manifest200]. *)
Definition putManifest : Request.t Sim.URL :=
  {| Request.Method := "PUT";
     Request.URL :=
       {| path := "https://registry.example/v2/acme/widget/manifests/1.0.1";
          RawQuery := EmptyString |};
     Request.Header := {[ "Content-Type" := [dockerManifestV2MIME] ]};
     Request.Body := Some (Str.bytes "{schemaVersion:2}") |}.

End Scenario.

(** The registry asks for a token, the exchange gives one, and the resend
    is answered with a 401 again. *)
Definition twice401 : network Sim.URL (nat * nat) :=
  Sim.scripted
    [(Some Scenario.bearer401, None); (Some Scenario.second401, None)]
    [inl Scenario.token200].

(** * Properties *)

(** ** The lexer *)

Lemma app_String c s t : String c s +:+ t = String c (s +:+ t).
Proof. reflexivity. Qed.

Lemma app_empty t : EmptyString +:+ t = t.
Proof. reflexivity. Qed.

Lemma app_assoc_string (s t u : string) : (s +:+ t) +:+ u = s +:+ (t +:+ u).
Proof. induction s as [|c s IH]; [done|]. rewrite !app_String. by f_equal. Qed.

Lemma upto_app s t : Str.upto (String.length s) (s +:+ t) = s.
Proof.
  induction s as [|c s IH]; [by destruct t|]. rewrite app_String. simpl.
  by f_equal.
Qed.

Lemma from_app s t : Str.from (String.length s) (s +:+ t) = t.
Proof. induction s as [|c s IH]; [by destruct t|]. by rewrite app_String. Qed.

Lemma token_not_space c : isTokenByte c → isSpaceByte c = false.
Proof. by destruct c as [[] [] [] [] [] [] [] []]. Qed.

Lemma lower_token c : isTokenByte (Str.lower c) = isTokenByte c.
Proof. by destruct c as [[] [] [] [] [] [] [] []]. Qed.

Lemma token_ascii c : isTokenByte c → (N_of_ascii c < 128)%N.
Proof. by destruct c as [[] [] [] [] [] [] [] []]. Qed.

Lemma tokenEnd_app tok rest :
  allBytes isTokenByte tok → tokenEnd rest = 0 →
  tokenEnd (tok +:+ rest) = String.length tok.
Proof.
  intros Htok Hrest. induction tok as [|c tok IH]; [by rewrite app_empty|].
  rewrite app_String. simpl in *. apply andb_True in Htok as [Hc Htok].
  unfold isTokenByte in Hc. destruct (_ =? _)%N; [done|]. by rewrite IH.
Qed.

Lemma expectToken_app tok rest :
  allBytes isTokenByte tok → tokenEnd rest = 0 →
  expectToken (tok +:+ rest) = (tok, rest).
Proof.
  intros Htok Hrest. unfold expectToken.
  by rewrite tokenEnd_app, upto_app, from_app.
Qed.

Lemma skipSpace_id s : spaceEnd s = 0 → skipSpace s = s.
Proof. unfold skipSpace. intros ->. by destruct s. Qed.

Lemma spaceEnd_token tok rest : token tok → spaceEnd (tok +:+ rest) = 0.
Proof.
  destruct tok as [|c tok]; [done|]. intros [_ Hc]%andb_True.
  simpl in Hc. apply andb_True in Hc as [Hc _].
  apply token_not_space in Hc. rewrite app_String. simpl.
  unfold isSpaceByte in Hc. by destruct (_ =? _)%N.
Qed.

(** What [expectToken] returns as a token is one run of ASCII bytes, on
    which [Str.ToLower] is [strings.ToLower]. *)
Lemma tokenEnd_upto s : allBytes isTokenByte (Str.upto (tokenEnd s) s).
Proof.
  induction s as [|c s IH]; [done|]. simpl.
  destruct (_ =? _)%N eqn:E; [done|]. simpl. unfold isTokenByte at 1.
  by rewrite E.
Qed.

Lemma expectToken_ascii s tok rest :
  expectToken s = (tok, rest) →
  allBytes (λ c, bool_decide (N_of_ascii c < 128)%N) tok.
Proof.
  unfold expectToken. intros [= <- _].
  pose proof (tokenEnd_upto s) as Hall. revert Hall.
  generalize (Str.upto (tokenEnd s) s). intros t.
  induction t as [|c t IH]; [done|]. simpl.
  intros [Hc Ht]%andb_True. apply andb_True. split; [|by apply IH].
  apply bool_decide_pack. by apply token_ascii.
Qed.

(** ** Quoted values without escapes *)

Lemma quoted_plain s i v rest :
  allBytes plainByte v →
  quoted s i (v +:+ String dquote rest)
  = Ok (Str.upto (i + String.length v) s, rest).
Proof.
  revert i. induction v as [|c v IH]; intros i Hv.
  - rewrite app_empty. simpl. by rewrite Nat.add_0_r.
  - simpl in Hv. apply andb_True in Hv as [Hc Hv].
    apply andb_True in Hc as [Hq Hb].
    rewrite app_String. simpl.
    rewrite decide_False by (intros ->; by apply negb_True in Hq).
    rewrite decide_False by (intros ->; by apply negb_True in Hb).
    rewrite IH by done. do 2 f_equal. f_equal. lia.
Qed.

Lemma expectTokenOrQuoted_plain v rest :
  allBytes plainByte v →
  expectTokenOrQuoted (String dquote (v +:+ String dquote rest)) = Ok (v, rest).
Proof.
  intros Hv. unfold expectTokenOrQuoted. simpl decide. cbv iota.
  rewrite quoted_plain by done. simpl. by rewrite upto_app.
Qed.

(** ** When a quoted value makes the parser panic *)

Lemma length_from n s :
  String.length (Str.from n s) = String.length s - n.
Proof.
  revert s. induction n as [|n IH]; intros [|c s]; simpl; done.
Qed.

Lemma length_upto n s :
  length (Str.bytes (Str.upto n s)) = Nat.min n (String.length s).
Proof.
  revert s. induction n as [|n IH]; intros [|c s]; simpl; try done.
  by rewrite IH.
Qed.

Lemma store_room p j b :
  j < length p → store p j b = Ok (<[j:=b]> p).
Proof. intros Hj. unfold store. by rewrite decide_True. Qed.

(** With room in the buffer for every byte left, the inner loop returns. *)
Lemma unescape_room rest escape p j :
  j + String.length rest ≤ length p →
  ∃ v r, unescape rest escape p j = Ok (v, r).
Proof.
  revert escape p j. induction rest as [|b rest IH]; intros escape p j Hroom.
  { by eexists _, _. }
  simpl in *.
  assert (∃ v r, match store p j b with
                 | Ok p' => unescape rest false p' (S j)
                 | IndexOutOfRange i n => IndexOutOfRange i n
                 end = Ok (v, r)) as Hstore.
  { rewrite store_room by lia. apply IH. rewrite length_insert. lia. }
  destruct escape; [done|]. repeat case_decide; [|by eexists _, _|done].
  apply IH. lia.
Qed.

(** Without room for the last byte, a text of plain bytes overflows it. *)
Lemma unescape_overflow rest p j :
  allBytes plainByte rest → j ≤ length p → length p < j + String.length rest →
  unescape rest false p j = IndexOutOfRange (length p) (length p).
Proof.
  revert p j. induction rest as [|b rest IH]; intros p j Hplain Hj Hover.
  { simpl in Hover. lia. }
  simpl in *. apply andb_True in Hplain as [Hb Hplain].
  apply andb_True in Hb as [Hq Hs].
  assert (b ≠ dquote) as Hnq by (by intros ->).
  assert (b ≠ backslash) as Hns by (by intros ->).
  clear Hq Hs.
  rewrite !decide_False by done.
  unfold store. destruct (decide (j < length p)) as [Hlt|Hlt].
  - rewrite IH; rewrite ?length_insert; try done; lia.
  - by replace j with (length p) by lia.
Qed.

(** A quote or a backslash among the bytes left makes the room. *)
Lemma unescape_not_plain rest p j :
  allBytes plainByte rest = false → j + String.length rest ≤ S (length p) →
  ∃ v r, unescape rest false p j = Ok (v, r).
Proof.
  revert p j. induction rest as [|b rest IH]; intros p j Hplain Hroom; [done|].
  simpl in *. case_decide as Hs; [apply unescape_room; lia|].
  case_decide as Hq; [by eexists _, _|].
  assert (plainByte b = true) as Hb.
  { unfold plainByte. by rewrite !bool_decide_eq_false_2. }
  rewrite Hb in Hplain. simpl in Hplain.
  destruct rest as [|b' rest']; [done|]. rewrite store_room by (simpl in *; lia).
  apply IH; [done|]. rewrite length_insert. lia.
Qed.

(** The outer loop returns when it meets a backslash at index 1 or
    later. *)
Lemma quoted_room s i rest :
  1 ≤ i → i + String.length rest = String.length s →
  ∃ v r, quoted s i rest = Ok (v, r).
Proof.
  revert i. induction rest as [|c rest IH]; intros i Hi Hlen.
  { by eexists _, _. }
  simpl in *. case_decide; [by eexists _, _|]. case_decide; [|apply IH; lia].
  apply unescape_room.
  rewrite length_app, length_take, length_drop, length_replicate, length_upto,
    length_from. lia.
Qed.

(** The loops on a text whose first byte is a backslash: one store of
    that byte at index 0, then the inner loop on the bytes that follow. *)
Lemma quoted_backslash_first rest :
  quoted (String backslash rest) 0 (String backslash rest)
  = match store (replicate (String.length rest) "000"%char) 0 backslash with
    | Ok p' => unescape rest false p' 1
    | IndexOutOfRange i n => IndexOutOfRange i n
    end.
Proof. simpl. by rewrite Nat.min_0_r, Nat.sub_0_r. Qed.

(** X4: [expectTokenOrQuoted] panics on the texts that open with a quote and a
    backslash and hold no other quote or backslash, and on no other text;
    the index and the length of the panic are the number of bytes after
    the backslash. *)
Theorem expectTokenOrQuoted_panic_iff s i n :
  expectTokenOrQuoted s = IndexOutOfRange i n ↔
  ∃ rest, s = String dquote (String backslash rest)
          ∧ allBytes plainByte rest
          ∧ i = String.length rest ∧ n = String.length rest.
Proof.
  split.
  - destruct s as [|c s]; [done|]. unfold expectTokenOrQuoted.
    case_decide as Hc; [subst c|done].
    destruct s as [|c rest]; [done|].
    destruct (decide (c = backslash)) as [->|Hs].
    + rewrite quoted_backslash_first. unfold store. rewrite length_replicate.
      destruct (decide (0 < String.length rest)) as [Hlt|Hlt].
      * destruct (allBytes plainByte rest) eqn:Hplain.
        -- rewrite unescape_overflow; rewrite ?length_insert, ?length_replicate;
             [|by rewrite Hplain|lia|lia].
           intros [= <- <-]. exists rest. by rewrite Hplain.
        -- destruct (unescape_not_plain rest
                       (<[0:=backslash]> (replicate (String.length rest) "000"%char))
                       1 Hplain) as (v & r & ->); [|done].
           rewrite length_insert, length_replicate. lia.
      * intros [= <- <-]. destruct rest; [|simpl in Hlt; lia]. by exists EmptyString.
    + simpl. case_decide; [done|]. rewrite decide_False by done.
      destruct (quoted_room (String c rest) 1 rest) as (v & r & ->);
        [lia|done|done].
  - intros (rest & -> & Hplain & -> & ->). unfold expectTokenOrQuoted.
    rewrite decide_True by done. rewrite quoted_backslash_first.
    unfold store. rewrite length_replicate.
    destruct (decide (0 < String.length rest)) as [Hlt|Hlt].
    + rewrite unescape_overflow; rewrite ?length_insert, ?length_replicate;
        [done|done|lia|lia].
    + destruct rest; [done|simpl in Hlt; lia].
Qed.

(** ** The parameter loop *)

(** One turn of the loop of [parseValueAndParams], as the source writes
    it. *)
Lemma paramsLoop_turn s params :
  paramsLoop s params =
  if Str.HasPrefix s "," then
    let '(pkey, s1) := expectToken (skipSpace (Str.from 1 s)) in
    if Str.is_empty pkey then Ok params
    else if Str.HasPrefix s1 "=" then
      match expectTokenOrQuoted (Str.from 1 s1) with
      | IndexOutOfRange i n => IndexOutOfRange i n
      | Ok (pvalue, s2) =>
          if Str.is_empty pvalue then Ok params
          else paramsLoop (skipSpace s2) (<[Str.ToLower pkey := pvalue]> params)
      end
    else Ok params
  else Ok params.
Proof.
  unfold expectToken. cbv zeta beta iota.
  funelim (paramsLoop s params).
  all: repeat match goal with
       | E : Str.HasPrefix _ _ = _ |- _ => rewrite E
       | E : Str.is_empty _ = _ |- _ => rewrite E
       | E : expectTokenOrQuoted _ = _ |- _ => rewrite E
       end; reflexivity.
Qed.

(** The loop stops at once on a text that does not start with a comma. *)
Lemma paramsLoop_done s params :
  Str.HasPrefix s "," = false → paramsLoop s params = Ok params.
Proof. intros E. by rewrite paramsLoop_turn, E. Qed.

Lemma HasPrefix_String c s :
  Str.HasPrefix (String c s) (String c EmptyString) = true.
Proof.
  unfold Str.HasPrefix. simpl. destruct (ascii_dec c c); [|done]. by destruct s.
Qed.

(** A parameter [,key="value"] with a token for key and a plain value is
    stored under the lower-cased key, and the loop goes on with what
    follows. *)
Lemma paramsLoop_item k v rest params :
  token k → plain v →
  paramsLoop ("," +:+ k +:+ "=" +:+ quote v +:+ rest) params
  = paramsLoop (skipSpace rest) (<[Str.ToLower k := v]> params).
Proof.
  intros Hk Hv. rewrite paramsLoop_turn.
  rewrite app_String, app_empty, HasPrefix_String.
  simpl Str.from.
  rewrite skipSpace_id by (by apply spaceEnd_token).
  apply andb_True in Hk as Hk'. destruct Hk' as [Hk1 Hk2].
  apply andb_True in Hv as [Hv1 Hv2].
  rewrite expectToken_app by done.
  destruct (Str.is_empty k); [done|].
  rewrite app_String, app_empty, HasPrefix_String.
  simpl Str.from. unfold quote.
  rewrite app_String, app_assoc_string, app_String, app_empty.
  rewrite expectTokenOrQuoted_plain by done.
  by destruct (Str.is_empty v).
Qed.

Lemma app_empty_r (s : string) : s +:+ EmptyString = s.
Proof. induction s as [|c s IH]; [done|]. rewrite app_String. by f_equal. Qed.

Lemma paramsLoop_empty params : paramsLoop EmptyString params = Ok params.
Proof. by apply paramsLoop_done. Qed.

(** The last parameter of a header. *)
Lemma paramsLoop_last k v params :
  token k → plain v →
  paramsLoop ("," +:+ k +:+ "=" +:+ quote v) params
  = Ok (<[Str.ToLower k := v]> params).
Proof.
  intros Hk Hv. rewrite <- (app_empty_r (quote v)).
  rewrite paramsLoop_item by done. apply paramsLoop_empty.
Qed.

(** A scheme is spelled as a token whenever its lower-casing is one. *)
Lemma allBytes_ToLower s :
  allBytes isTokenByte (Str.ToLower s) = allBytes isTokenByte s.
Proof.
  induction s as [|c s IH]; [done|]. simpl. by rewrite lower_token, IH.
Qed.

Lemma token_ToLower s : token (Str.ToLower s) = token s.
Proof. unfold token. rewrite allBytes_ToLower. by destruct s. Qed.

(** The header [scheme params]: the scheme, one space, the parameters. *)
Lemma parseValueAndParams_scheme sch text :
  token sch → spaceEnd text = 0 →
  parseValueAndParams (sch +:+ " " +:+ text)
  = match paramsLoop ("," +:+ text) ∅ with
    | Ok params => Ok (Str.ToLower sch, params)
    | IndexOutOfRange i n => IndexOutOfRange i n
    end.
Proof.
  intros [Hne Hsch]%andb_True Htext. unfold parseValueAndParams.
  rewrite expectToken_app by done.
  destruct (Str.is_empty sch); [done|]. cbv iota beta zeta.
  replace (skipSpace (" " +:+ text)) with text; [reflexivity|].
  rewrite app_String, app_empty. unfold skipSpace. simpl spaceEnd.
  by rewrite Htext.
Qed.


(** ** Stored values are never empty *)

Lemma nonEmptyValues_empty : nonEmptyValues ∅.
Proof. intros key value. by rewrite lookup_empty. Qed.

Lemma nonEmptyValues_insert params key value :
  Str.is_empty value = false → nonEmptyValues params →
  nonEmptyValues (<[key := value]> params).
Proof.
  intros Hv Hp key' value'. rewrite lookup_insert. case_decide.
  - intros [= <-]. by intros ->.
  - apply Hp.
Qed.

Lemma paramsLoop_nonEmptyValues s params r :
  nonEmptyValues params → paramsLoop s params = Ok r → nonEmptyValues r.
Proof.
  funelim (paramsLoop s params); intros Hp Hr;
    try (by injection Hr as <-); try done.
  match goal with
  | IH : ∀ r, nonEmptyValues _ → _ |- _ => apply IH; [|done]
  end.
  by apply nonEmptyValues_insert.
Qed.

Lemma parseValueAndParams_nonEmptyValues header value params :
  parseValueAndParams header = Ok (value, params) → nonEmptyValues params.
Proof.
  unfold parseValueAndParams. destruct (expectToken header) as [v s].
  destruct (Str.is_empty v).
  - intros [= _ <-]. apply nonEmptyValues_empty.
  - destruct (paramsLoop _ _) as [r|] eqn:E; [|done]. intros [= _ <-].
    eapply paramsLoop_nonEmptyValues; [|done]. apply nonEmptyValues_empty.
Qed.

(** ** Headers with a list of parameters *)

Lemma Join_cons e l sep :
  l ≠ [] → Str.Join (e :: l) sep = e +:+ sep +:+ Str.Join l sep.
Proof. by destruct l. Qed.

Lemma paramsLoop_items ps last params :
  Forall (λ kv, wellFormed kv) ps →
  paramsLoop ("," +:+ Str.Join ((item <$> ps) ++ [last]) ",") params
  = paramsLoop ("," +:+ last) (storeAll params ps).
Proof.
  revert params. induction ps as [|[k v] ps IH]; intros params Hps; [done|].
  apply Forall_cons in Hps as [[Hk Hv]%andb_True Hps].
  rewrite fmap_cons, <- app_comm_cons, Join_cons by (by destruct (item <$> ps)).
  unfold item at 1. simpl fst. simpl snd.
  rewrite !app_assoc_string.
  rewrite paramsLoop_item by done.
  rewrite skipSpace_id by done. by rewrite IH.
Qed.

(** A header whose parameter [key] has a value that parses to the empty
    string: the parameters before it are all that is stored. *)
Lemma parseValueAndParams_empty_value scheme ps key text rest :
  token scheme → Forall (λ kv, wellFormed kv) ps → token key →
  expectTokenOrQuoted text = Ok (EmptyString, rest) →
  parseValueAndParams
    (scheme +:+ " " +:+ Str.Join ((item <$> ps) ++ [key +:+ "=" +:+ text]) ",")
  = Ok (Str.ToLower scheme, storeAll ∅ ps).
Proof.
  intros Hsch Hps Hkey Htext.
  rewrite parseValueAndParams_scheme; [|done|].
  - rewrite paramsLoop_items by done. rewrite paramsLoop_turn.
    rewrite app_String, app_empty, HasPrefix_String. simpl Str.from.
    rewrite skipSpace_id by (by apply spaceEnd_token).
    apply andb_True in Hkey as Hkey'. destruct Hkey' as [Hk1 Hk2].
    rewrite expectToken_app by done.
    destruct (Str.is_empty key); [done|].
    rewrite app_String, app_empty, HasPrefix_String. simpl Str.from.
    by rewrite Htext.
  - destruct ps as [|[k v] ps].
    + by apply spaceEnd_token.
    + apply Forall_cons in Hps as [[Hk Hv]%andb_True Hps].
      rewrite fmap_cons, <- app_comm_cons, Join_cons
        by (by destruct (item <$> ps)).
      unfold item at 1. simpl fst. rewrite !app_assoc_string.
      by apply spaceEnd_token.
Qed.

(** ** Headers with a value that opens with an escape *)

(** A quote, a backslash and then no other quote or backslash: the first
    store after the text is used up has no room in the buffer. *)
Lemma expectTokenOrQuoted_leading_escape rest :
  allBytes plainByte rest →
  expectTokenOrQuoted (String dquote (String backslash rest))
  = IndexOutOfRange (String.length rest) (String.length rest).
Proof.
  intros Hplain. unfold expectTokenOrQuoted.
  rewrite decide_True by done. rewrite quoted_backslash_first.
  unfold store. rewrite length_replicate.
  destruct (decide (0 < String.length rest)) as [Hlt|Hlt].
  - rewrite unescape_overflow; rewrite ?length_insert, ?length_replicate;
      [done|done|lia|lia].
  - destruct rest; [done|simpl in Hlt; lia].
Qed.

(** The header of a scheme and one parameter with such a value. *)
Lemma parseValueAndParams_leading_escape scheme key rest :
  token scheme → token key → allBytes plainByte rest →
  parseValueAndParams
    (scheme +:+ " " +:+ key +:+ "=" +:+ String dquote (String backslash rest))
  = IndexOutOfRange (String.length rest) (String.length rest).
Proof.
  intros Hsch Hkey Hplain.
  rewrite parseValueAndParams_scheme by (done || by apply spaceEnd_token).
  rewrite paramsLoop_turn.
  rewrite app_String, app_empty, HasPrefix_String. simpl Str.from.
  rewrite skipSpace_id by (by apply spaceEnd_token).
  apply andb_True in Hkey as Hkey'. destruct Hkey' as [Hk1 Hk2].
  rewrite expectToken_app by done.
  destruct (Str.is_empty key); [done|].
  rewrite app_String, app_empty, HasPrefix_String. simpl Str.from.
  by rewrite expectTokenOrQuoted_leading_escape.
Qed.

(** ** The challenge parser on the header of one response *)




(** C10: a value stored in the parameters is never the empty string.  When
    the loop reads a parameter whose value parses to the empty string, it
    returns the parameters stored so far: that parameter and all that
    follow are left out.  So the header of a scheme, parameters of the form
    key, equals sign, quoted plain value, and then a parameter whose value
    parses to the empty string (as [scope=] followed by two quotes) has the
    scheme and the parameters before that one, whatever follows it. *)
Theorem C10_no_empty_value :
  (∀ header value params,
     parseValueAndParams header = Ok (value, params) →
     ∀ key v, params !! key = Some v → v ≠ EmptyString)
  ∧ (∀ s params pkey s1 rest,
       Str.HasPrefix s "," = true →
       expectToken (skipSpace (Str.from 1 s)) = (pkey, s1) →
       Str.HasPrefix s1 "=" = true →
       expectTokenOrQuoted (Str.from 1 s1) = Ok (EmptyString, rest) →
       paramsLoop s params = Ok params)
  ∧ (∀ scheme ps key text rest,
       token scheme → Forall (λ kv, wellFormed kv) ps → token key →
       expectTokenOrQuoted text = Ok (EmptyString, rest) →
       parseValueAndParams
         (scheme +:+ " "
            +:+ Str.Join ((item <$> ps) ++ [key +:+ "=" +:+ text]) ",")
       = Ok (Str.ToLower scheme, storeAll ∅ ps)).
Proof.
  split; [|split].
  - intros header value params Hp.
    by apply parseValueAndParams_nonEmptyValues in Hp.
  - intros s params pkey s1 rest Hcomma Hkey Heq Hvalue.
    rewrite paramsLoop_turn, Hcomma, Hkey, Heq, Hvalue.
    by destruct (Str.is_empty pkey).
  - apply parseValueAndParams_empty_value.
Qed.

Lemma C10_no_empty_value_witness :
  parseValueAndParams emptyScopeHeader = Ok ("bearer", {[ "realm" := "r" ]})
  ∧ ∀ key v, ({[ "realm" := "r" ]} : gmap string string) !! key = Some v →
             v ≠ EmptyString.
Proof.
  assert (parseValueAndParams emptyScopeHeader = Ok ("bearer", {[ "realm" := "r" ]}))
    as Hp.
  { apply (proj2 (proj2 C10_no_empty_value) "Bearer" [("realm", "r")] "scope"
             (quote EmptyString +:+ ",service=" +:+ quote "s")
             ("," +:+ "service=" +:+ quote "s")).
    - exact I.
    - repeat constructor.
    - exact I.
    - reflexivity. }
  split; [exact Hp|]. exact (proj1 C10_no_empty_value _ _ _ Hp).
Defined.

(** C2 (the code departs from it).  Write Q for the quote and B for the
    backslash.  In [Bearer realm=QabBQcQ] the value should decode to [abQc],
    as [specUnquote] has it; the inner loop starts at index [i + i] instead
    of [i + 1], skips the escaped quote and stores [abc].  In
    [Bearer realm=QBQbQ], with the backslash first, the value should decode
    to [Qb]; the code stores the backslash itself and ends the value at the
    escaped quote. *)
Theorem C2_escape_decoded_wrongly :
  let inner := "ab" +:+ String backslash (String dquote ("c"
                 +:+ String dquote EmptyString)) in
  let first := String backslash (String dquote ("b"
                 +:+ String dquote EmptyString)) in
  (specUnquote inner = Some ("ab" +:+ String dquote "c", EmptyString)
   ∧ parseValueAndParams ("Bearer realm=" +:+ String dquote inner)
     = Ok ("bearer", {[ "realm" := "abc" ]}))
  ∧ (specUnquote first = Some (String dquote "b", EmptyString)
     ∧ parseValueAndParams ("Bearer realm=" +:+ String dquote first)
       = Ok ("bearer", {[ "realm" := String backslash EmptyString ]})).
Proof. repeat split; vm_compute; reflexivity. Qed.

(** C3 (the code departs from it).  On [Bearer realm=QB] (Q the quote, B
    the backslash), a quoted value that ends after its backslash, the parser
    does not return: the store [p[j] = b] panics with index 0 out of range
    of a buffer of length 0. *)
Theorem C3_unterminated_escape_panics :
  parseValueAndParams
    ("Bearer realm=" +:+ String dquote (String backslash EmptyString))
  = IndexOutOfRange 0 0.
Proof. vm_compute. reflexivity. Qed.

(** ** Running programs *)

Section Transports.
Context `{GoLib url_URL}.

Lemma run_bind {W A B} (net : network url_URL W) (p : Prog url_URL A)
    (f : A → Prog url_URL B) w :
  run net (bind p f) w
  = let '(a, w1, tr1) := run net p w in
    let '(b, w2, tr2) := run net (f a) w1 in
    (b, w2, tr1 ++ tr2).
Proof.
  revert w. induction p as [a|X c k IH]; intros w; simpl.
  - by destruct (run net (f a) w) as [[b w2] tr2].
  - destruct (answer net c w) as [[x w1] e]. rewrite IH.
    destruct (run net (k x) w1) as [[a w2] tr1].
    by destruct (run net (f a) w2) as [[b w3] tr2].
Qed.

Import tokenAuthTransport.

Lemma bearerChallenge_None challenges :
  bearerChallenge challenges = None ↔
  ∀ c, c ∈ challenges → Scheme c ≠ "bearer".
Proof.
  induction challenges as [|c cs IH]; simpl.
  - split; [|done]. intros _ c Hc. by apply elem_of_nil in Hc.
  - case_decide as Hc.
    + split; [done|]. intros Hall. destruct (Hall c); [left|done].
    + rewrite IH. split.
      * intros Hall c' [->|Hin]%elem_of_cons; [done|by apply Hall].
      * intros Hall c' Hin. apply Hall. by right.
Qed.

(** X29: when the response to a request is a 401, the parser returns the
    challenges of its header and none of them has the scheme [bearer] (only
    a Basic challenge, only values that yield no challenge, or no
    [WWW-Authenticate] at all), the transport returns that response as it
    is; the run holds the one round trip and nothing else: no token
    exchange, no second request, and the body is not closed. *)
Theorem RoundTrip_returns_401_without_bearer {W} (net : network url_URL W)
    (w w' : W) (t : tokenAuthTransport.t) (req : Request.t url_URL) (resp : Response.t)
    (challenges : list authChallenge) :
  onRoundTrip net req w = ((Some resp, None), w') →
  Response.StatusCode resp = StatusUnauthorized →
  parseAuthHeader (Response.Header resp) = Ok challenges →
  (∀ c, c ∈ challenges → Scheme c ≠ "bearer") →
  run net (RoundTrip t req) w
  = (Ok (Some resp, None), w', [EvRoundTrip req (Some resp, None)]).
Proof.
  intros Hnet Hcode Hparse Hnone%bearerChallenge_None.
  unfold RoundTrip. simpl. rewrite Hnet. simpl.
  rewrite Hcode. simpl. by rewrite Hparse, Hnone.
Qed.

(** C7 (the code departs from it).  Write Q for the quote and B for the
    backslash.  A 401 whose only [WWW-Authenticate] value is malformed, a
    scheme and one parameter whose value is Q, B and then bytes that are
    neither (as [Basic realm=QB]), carries no challenge of scheme [bearer];
    the transport does not return that response: the parser panics on the
    value (the defect of C3, the statement [i += i]), and the panic is the
    outcome of [RoundTrip], after the one round trip. *)
Theorem C7_malformed_challenge_panics {W} (net : network url_URL W)
    (w w' : W) (t : tokenAuthTransport.t) (req : Request.t url_URL)
    (resp : Response.t) (scheme key rest : string) :
  onRoundTrip net req w = ((Some resp, None), w') →
  Response.StatusCode resp = StatusUnauthorized →
  Response.Header resp !! http_CanonicalHeaderKey "WWW-Authenticate"
  = Some [scheme +:+ " " +:+ key +:+ "="
            +:+ String dquote (String backslash rest)] →
  token scheme → token key → allBytes plainByte rest →
  run net (RoundTrip t req) w
  = (IndexOutOfRange (String.length rest) (String.length rest), w',
     [EvRoundTrip req (Some resp, None)]).
Proof.
  intros Hnet Hcode Hvalue Hsch Hkey Hplain.
  unfold RoundTrip. simpl. rewrite Hnet. simpl. rewrite Hcode. simpl.
  unfold parseAuthHeader, index_values. rewrite Hvalue. simpl.
  by rewrite parseValueAndParams_leading_escape.
Qed.

Lemma countEvents_app (p : event url_URL → bool) tr1 tr2 :
  countEvents p (tr1 ++ tr2) = countEvents p tr1 + countEvents p tr2.
Proof. unfold countEvents. by rewrite List.filter_app, length_app. Qed.

Lemma countEvents_cons (p : event url_URL → bool) e tr :
  countEvents p (e :: tr) = (if p e then 1 else 0) + countEvents p tr.
Proof. unfold countEvents. simpl. by destruct (p e). Qed.

Lemma countEvents_none (p : event url_URL → bool) tr :
  Forall (λ e, p e = false) tr → countEvents p tr = 0.
Proof.
  induction 1 as [|e tr He _ IH]; [done|]. unfold countEvents in *. simpl.
  by rewrite He.
Qed.

(** The token exchange: no round trip, and at most one [Do]. *)
Lemma auth_run {W} (net : network url_URL W) (w w' : W)
    (t : tokenAuthTransport.t) (challenge : bearerAuthChallenge) r
    (tr : list (event url_URL)) :
  run net (auth t challenge) w = (r, w', tr) →
  Forall (λ e, isRoundTrip e = false) tr ∧ countEvents isDo tr ≤ 1.
Proof.
  assert (∀ tr0 : list (event url_URL),
            Forall (λ e, isRoundTrip e = false) tr0 → length tr0 ≤ 2 →
            countEvents isDo tr0 ≤ 1 →
            ∀ (x : string * option Response.t * option error) (w0 : W),
              (x, w0, tr0) = (r, w', tr) →
              Forall (λ e, isRoundTrip e = false) tr ∧ countEvents isDo tr ≤ 1)
    as Hend.
  { by intros tr0 Hrt _ Hdo x w0 [= _ _ <-]. }
  unfold auth.
  destruct (url_Parse _) as [realmUrl|e]; simpl;
    [|by apply Hend; [constructor|simpl; lia|compute; lia]].
  destruct (Request.New _ _ _) as [authRequest|e]; simpl;
    [|by apply Hend; [constructor|simpl; lia|compute; lia]].
  destruct (onDo net _ w) as [[response|e] w1]; simpl;
    [|by apply Hend; [repeat constructor|simpl; lia|compute; lia]].
  destruct (negb _); simpl;
    [by apply Hend; [repeat constructor|simpl; lia|compute; lia]|].
  destruct (json_DecodeToken _); simpl;
    by apply Hend; [repeat constructor|simpl; lia|compute; lia].
Qed.

(** Exchange, then at most one round trip, whose answer is the result. *)
Lemma authAndRetry_run {W} (net : network url_URL W) (w w' : W)
    (t : tokenAuthTransport.t) (challenge : bearerAuthChallenge)
    (req : Request.t url_URL) (res : roundTripResult)
    (tr : list (event url_URL)) :
  run net (authAndRetry t challenge req) w = (res, w', tr) →
  ∃ mid, Forall (λ e, isRoundTrip e = false) mid ∧ countEvents isDo mid ≤ 1 ∧
    (tr = mid ∨
     ∃ token,
       tr = mid ++
            [EvRoundTrip
               (Request.HeaderSet req "Authorization" ("Bearer " +:+ token))
               res]).
Proof.
  intros Hrun. unfold authAndRetry, mbind, Prog_bind in Hrun.
  rewrite run_bind in Hrun.
  destruct (run net (auth t challenge) w) as [[[[token authResp] err] w1] mid]
    eqn:Hauth.
  apply auth_run in Hauth as [Hmid Hdo]. exists mid. split; [done|].
  split; [done|]. destruct err as [e|]; simpl in Hrun.
  - injection Hrun as _ _ <-. left. by rewrite app_nil_r.
  - destruct (onRoundTrip net _ w1) as [[resp err] w2]. simpl in Hrun.
    injection Hrun as <- _ <-. right. by exists token.
Qed.

#[local] Arguments authAndRetry : simpl never.

(** The runs of the transport: the round trip of the request alone, or
    followed by the events of one exchange and by at most one more round
    trip. *)
Lemma RoundTrip_run {W} (net : network url_URL W) (w w' : W)
    (t : tokenAuthTransport.t) (req : Request.t url_URL)
    (res : outcome roundTripResult) (tr : list (event url_URL)) :
  run net (RoundTrip t req) w = (res, w', tr) →
  ∃ a1 mid, Forall (λ e, isRoundTrip e = false) mid ∧ countEvents isDo mid ≤ 1 ∧
    (tr = EvRoundTrip req a1 :: mid ∨
     ∃ token a,
       res = Ok a ∧
       tr = EvRoundTrip req a1 :: mid ++
              [EvRoundTrip
                 (Request.HeaderSet req "Authorization" ("Bearer " +:+ token))
                 a]).
Proof.
  unfold RoundTrip, mbind, mret, Prog_bind, Prog_ret. simpl.
  destruct (onRoundTrip net req w) as [[resp err] w1].
  assert (∀ x : outcome roundTripResult,
            (x, w1, [EvRoundTrip req (resp, err)]) = (res, w', tr) →
            ∃ a1 mid, Forall (λ e, isRoundTrip e = false) mid ∧
              countEvents isDo mid ≤ 1 ∧
              (tr = EvRoundTrip req a1 :: mid ∨
               ∃ token a, res = Ok a ∧
                 tr = EvRoundTrip req a1 :: mid ++
                   [EvRoundTrip
                      (Request.HeaderSet req "Authorization"
                         ("Bearer " +:+ token)) a])) as Hstop.
  { intros x [= _ _ <-]. exists (resp, err), []. split; [done|].
    split; [by compute; lia|]. by left. }
  destruct err as [e|]; [by apply Hstop|].
  destruct resp as [r|]; [|by apply Hstop].
  destruct (_ =? _)%Z; [|by apply Hstop].
  destruct (parseAuthHeader _) as [challenges|]; [|by apply Hstop].
  destruct (bearerChallenge challenges) as [bc|]; [|by apply Hstop].
  clear Hstop. simpl. rewrite run_bind.
  match goal with
  | |- context [run net (authAndRetry ?a ?b ?c) w1] =>
      destruct (run net (authAndRetry a b c) w1) as [[res1 w2] tr1] eqn:Hretry
  end.
  simpl. intros Hrun. injection Hrun as <- _ <-.
  apply authAndRetry_run in Hretry as (mid & Hmid & Hdo & Htr).
  exists (Some r, None), (EvClose r :: mid). split; [by constructor|].
  split; [done|]. destruct Htr as [->|[token ->]].
  - left. by rewrite app_nil_r.
  - right. exists token, res1. split; [done|]. by rewrite app_nil_r.
Qed.

(** C4: a run of the transport on one request holds at most one token
    exchange and at most two round trips, the request and one resend.  A
    round trip after the first is the resend of the request under an
    [Authorization: Bearer] header; it is the last event of the run and its
    answer, a second 401 included, is what the transport returns. *)
Theorem C4_one_exchange_one_retry {W} (net : network url_URL W) (w w' : W)
    (t : tokenAuthTransport.t) (req : Request.t url_URL)
    (res : outcome roundTripResult) (tr : list (event url_URL)) :
  run net (RoundTrip t req) w = (res, w', tr) →
  countEvents isDo tr ≤ 1 ∧ countEvents isRoundTrip tr ≤ 2 ∧
  ∀ i req' a, 0 < i → tr !! i = Some (EvRoundTrip req' a) →
    S i = length tr ∧ res = Ok a ∧
    ∃ token, req' = Request.HeaderSet req "Authorization" ("Bearer " +:+ token).
Proof.
  intros (a1 & mid & Hmid & Hdo & Htr)%RoundTrip_run.
  assert (∀ i req' a, mid !! i = Some (EvRoundTrip req' a) → False) as Hnot.
  { intros i req' a Hi. eapply Forall_lookup_1 in Hi; [|done]. done. }
  pose proof (countEvents_none _ _ Hmid) as Hrt.
  destruct Htr as [->|(token & a & -> & ->)];
    rewrite !countEvents_cons, ?countEvents_app, ?countEvents_cons; simpl.
  - split; [lia|]. split; [lia|].
    intros [|i] req' a' Hi Hlook; [lia|]. by apply Hnot in Hlook.
  - split; [unfold countEvents at 2; simpl; lia|].
    split; [unfold countEvents at 2; simpl; lia|].
    intros [|i] req' a' Hi Hlook; [lia|]. simpl in Hlook.
    apply lookup_app_Some in Hlook as [Hlook|[Hge Hlook]];
      [by apply Hnot in Hlook|].
    apply list_lookup_singleton_Some in Hlook as [Hi0 [= <- <-]].
    split; [|split; [done|by exists token]].
    rewrite length_app. simpl. lia.
Qed.

(** What the code does when the token exchange answers with a status other
    than 200: [auth] returns the response with a nil error, so
    [authAndRetry] goes on, and the request is sent again under
    [Authorization: Bearer] with the empty token; the answer to that resend
    is the result. *)
Lemma authAndRetry_exchange_refused {W} (net : network url_URL W)
    (w w1 w2 : W) (t : tokenAuthTransport.t) (challenge : bearerAuthChallenge)
    (req : Request.t url_URL) realmUrl authRequest response a :
  url_Parse (Realm challenge) = inl realmUrl →
  Request.New "GET"
    (url_String
       (url_SetRawQuery realmUrl
          (url_Encode
             (let q :=
                Values_Set (url_Query realmUrl) "service" (Service challenge) in
              if negb (Str.is_empty (Scope challenge))
              then Values_Set q "scope" (Scope challenge) else q)))) None
    = inl authRequest →
  let authRequest :=
    if negb (Str.is_empty (Username t)) || negb (Str.is_empty (Password t))
    then Request.SetBasicAuth authRequest (Username t) (Password t)
    else authRequest in
  let retry := Request.HeaderSet req "Authorization" "Bearer " in
  onDo net authRequest w = (inl response, w1) →
  Response.StatusCode response ≠ StatusOK →
  onRoundTrip net retry w1 = (a, w2) →
  run net (authAndRetry t challenge req) w
  = (a, w2, [EvDo authRequest (inl response); EvRoundTrip retry a]).
Proof.
  intros Hparse Hnew authRequest' retry Hdo Hcode Hretry.
  unfold authAndRetry, auth, mbind, mret, Prog_bind, Prog_ret.
  rewrite Hparse. cbv zeta in Hnew. rewrite Hnew.
  fold authRequest'. simpl. rewrite Hdo. simpl.
  apply Z.eqb_neq in Hcode. rewrite Hcode. simpl.
  change ("Bearer " +:+ EmptyString) with "Bearer ". fold retry.
  rewrite Hretry. by destruct a.
Qed.

(** ** The Basic-Auth injector *)

(** C5: a request whose URL string starts with the registry base URL, when
    the username or the password is not empty, is forwarded with its
    [Authorization] header set to [Basic] and the base64 text of
    [username:password], and is otherwise the request as it was (method,
    URL, body and the other headers); a request whose URL string does not
    start with the registry base URL is forwarded as it is, and so is every
    request when the username and the password are both empty.  In each
    case the answer of the wrapped transport is returned as it is. *)
Theorem C5_basic_auth_by_prefix {W} (net : network url_URL W) (w : W)
    (b : basicAuthTransport.t) (req : Request.t url_URL) :
  (Str.HasPrefix (url_String (Request.URL req)) (basicAuthTransport.URL b)
   = true →
   basicAuthTransport.Username b ≠ EmptyString
   ∨ basicAuthTransport.Password b ≠ EmptyString →
   let sent :=
     {| Request.Method := Request.Method req;
        Request.URL := Request.URL req;
        Request.Header :=
          <[http_CanonicalHeaderKey "Authorization" :=
              ["Basic " +:+ base64_EncodeToString
                 (basicAuthTransport.Username b +:+ ":"
                    +:+ basicAuthTransport.Password b)]]>
            (Request.Header req);
        Request.Body := Request.Body req |} in
   run net (basicAuthTransport.RoundTrip b req) w
   = (let '(a, w') := onRoundTrip net sent w in (a, w', [EvRoundTrip sent a]))
   ∧ Header.Get (Request.Header sent) "Authorization"
     = "Basic " +:+ base64_EncodeToString
         (basicAuthTransport.Username b +:+ ":"
            +:+ basicAuthTransport.Password b))
  ∧ (Str.HasPrefix (url_String (Request.URL req)) (basicAuthTransport.URL b)
     = false →
     run net (basicAuthTransport.RoundTrip b req) w
     = let '(a, w') := onRoundTrip net req w in (a, w', [EvRoundTrip req a]))
  ∧ (basicAuthTransport.Username b = EmptyString →
     basicAuthTransport.Password b = EmptyString →
     run net (basicAuthTransport.RoundTrip b req) w
     = let '(a, w') := onRoundTrip net req w in (a, w', [EvRoundTrip req a])).
Proof.
  unfold basicAuthTransport.RoundTrip, mbind, mret, Prog_bind, Prog_ret.
  split; [|split].
  - intros -> Hcred.
    replace (negb (Str.is_empty (basicAuthTransport.Username b))
             || negb (Str.is_empty (basicAuthTransport.Password b)))
      with true.
    + split.
      * simpl. unfold Request.SetBasicAuth, Request.HeaderSet, Header.Set_.
        by destruct (onRoundTrip net _ w) as [[resp err] w'].
      * unfold Header.Get, index_values. simpl. by rewrite lookup_insert_eq.
    + destruct (basicAuthTransport.Username b), (basicAuthTransport.Password b);
        try done. by destruct Hcred.
  - intros ->. simpl. by destruct (onRoundTrip net _ w) as [[resp err] w'].
  - intros -> ->. destruct (Str.HasPrefix _ _); simpl;
      by destruct (onRoundTrip net _ w) as [[resp err] w'].
Qed.

(** ** Retag *)

Lemma Header_Get_Set (h : gmap string (list string)) key value :
  Header.Get (Header.Set_ h key value) key = value.
Proof.
  unfold Header.Get, Header.Set_, index_values. by rewrite lookup_insert_eq.
Qed.

(** C8: when the response to the manifest GET has a status other than 200,
    [ReTag] fails with the [HttpError] of that response's status text and
    of the GET URL, and the run holds the GET and the closing of its
    response only: no PUT is issued. *)
Theorem C8_get_failure_no_put {W} (net : network url_URL W) (w w' : W)
    (r : Registry.t) (repo oldTag newTag : string)
    (res : option error) (tr : list (event url_URL))
    (getReq : Request.t url_URL) (getResp : Response.t) :
  run net (Registry.ReTag r repo oldTag newTag) w = (res, w', tr) →
  tr !! 0 = Some (EvDo getReq (inl getResp)) →
  Response.StatusCode getResp ≠ StatusOK →
  res = Some (ErrHttp
                {| HttpError.Status := Response.Status getResp;
                   HttpError.URL :=
                     Registry.URL r +:+ "/v2/" +:+ repo +:+ "/manifests/"
                       +:+ oldTag |})
  ∧ Request.Method getReq = "GET"
  ∧ tr = [EvDo getReq (inl getResp); EvClose getResp].
Proof.
  unfold Registry.ReTag, Registry.url, Registry.manifestsPath, Request.New,
    mbind, mret, Prog_bind, Prog_ret.
  destruct (http_RequestURL _) as [u|e]; simpl; [|by intros [= _ _ <-]].
  destruct (onDo net _ w) as [[sourceResp|e] w1]; simpl;
    [|by intros [= _ _ <-] [=]].
  destruct (negb _) eqn:Hcode; simpl.
  - by intros [= <- _ <-] [= <- <-] _.
  - apply negb_false_iff, Z.eqb_eq in Hcode.
    destruct (run net _ w1) as [[a w''] tr0].
    intros [= _ _ <-] [= _ <-] Hne. done.
Qed.

(** C9: after a manifest GET answered with status 200 and a body read in
    full, the next request of [ReTag] is the PUT to the URL
    [base/v2/repository/manifests/newTag]; its body is the bytes read from
    the GET response and its [Content-Type] is that of the GET response.
    The run holds no other request. *)
Theorem C9_put_copies_manifest {W} (net : network url_URL W) (w w' : W)
    (r : Registry.t) (repo oldTag newTag : string)
    (res : option error) (tr : list (event url_URL))
    (getReq : Request.t url_URL) (getResp : Response.t) (u : url_URL) :
  run net (Registry.ReTag r repo oldTag newTag) w = (res, w', tr) →
  tr !! 0 = Some (EvDo getReq (inl getResp)) →
  Response.StatusCode getResp = StatusOK →
  Body.failure (Response.Body getResp) = None →
  http_RequestURL
    (Registry.URL r +:+ "/v2/" +:+ repo +:+ "/manifests/" +:+ newTag) = inl u →
  ∃ putReq a,
    tr !! 1 = Some (EvDo putReq a)
    ∧ Request.Method putReq = "PUT"
    ∧ Request.URL putReq = u
    ∧ Request.Body putReq = Some (Body.data (Response.Body getResp))
    ∧ Header.Get (Request.Header putReq) "Content-Type"
      = Header.Get (Response.Header getResp) "Content-Type"
    ∧ countEvents isDo tr = 2.
Proof.
  unfold Registry.ReTag, Registry.url, Registry.manifestsPath, Request.New,
    mbind, mret, Prog_bind, Prog_ret.
  destruct (http_RequestURL _) as [u0|e]; simpl; [|by intros [= _ _ <-]].
  destruct (onDo net _ w) as [[sourceResp|e] w1]; simpl;
    [|by intros [= _ _ <-] [=]].
  destruct (negb _) eqn:Hcode; simpl.
  { apply negb_true_iff, Z.eqb_neq in Hcode.
    by intros [= _ _ <-] [= _ <-] Hok. }
  intros Hrun Hfirst _ Hread Hput.
  assert (sourceResp = getResp) as ->.
  { destruct (run net _ w1) as [[a0 w0] tr0]. injection Hrun as _ _ <-.
    by injection Hfirst. }
  rewrite Hread, Hput in Hrun. simpl in Hrun.
  destruct (onDo net _ w1) as [a w2] eqn:Hdo. eexists _, a.
  destruct a as [destResp|e]; simpl in Hrun; [destruct (negb _)|];
    simpl in Hrun; injection Hrun as _ _ <-;
    (split; [reflexivity|]); simpl;
    rewrite Header_Get_Set; done.
Qed.

End Transports.

(** ** The theorems on a registry *)

Section Examples.
Import Sim Scenario.

Lemma RoundTrip_returns_401_without_bearer_witness :
  run (scripted [(Some basic401, None)] [])
      (tokenAuthTransport.RoundTrip transport getManifest) (0, 0)
  = (Ok (Some basic401, None), (1, 0),
     [EvRoundTrip getManifest (Some basic401, None)]).
Proof.
  apply (RoundTrip_returns_401_without_bearer
           (scripted [(Some basic401, None)] []) (0, 0) (1, 0) transport
           getManifest basic401
           [{| Scheme := "basic"; Parameters := {[ "realm" := "x" ]} |}]).
  - reflexivity.
  - reflexivity.
  - vm_compute. reflexivity.
  - intros c ->%list_elem_of_singleton. discriminate.
Defined.

(** On the 401 of [escape401], whose only challenge is [Basic realm=QB]. *)
Lemma C7_malformed_challenge_panics_witness :
  run (scripted [(Some escape401, None)] [])
      (tokenAuthTransport.RoundTrip transport getManifest) (0, 0)
  = (IndexOutOfRange 0 0, (1, 0),
     [EvRoundTrip getManifest (Some escape401, None)]).
Proof.
  apply (C7_malformed_challenge_panics
           (scripted [(Some escape401, None)] []) (0, 0) (1, 0) transport
           getManifest escape401 "Basic" "realm" EmptyString).
  - reflexivity.
  - reflexivity.
  - vm_compute. reflexivity.
  - exact I.
  - exact I.
  - exact I.
Defined.

Lemma C4_one_exchange_one_retry_witness :
  let tr := [EvRoundTrip getManifest (Some bearer401, None);
             EvClose bearer401;
             EvDo exchange (inl token200);
             EvClose token200;
             EvRoundTrip resend (Some second401, None)] in
  run twice401 (tokenAuthTransport.RoundTrip transport getManifest) (0, 0)
  = (Ok (Some second401, None), (2, 1), tr)
  ∧ countEvents isDo tr ≤ 1 ∧ countEvents isRoundTrip tr ≤ 2
  ∧ 5 = length tr
  ∧ Ok (Some second401, None) = Ok (A:=roundTripResult) (Some second401, None).
Proof.
  intros tr.
  assert (run twice401 (tokenAuthTransport.RoundTrip transport getManifest)
            (0, 0)
          = (Ok (Some second401, None), (2, 1), tr)) as Hrun
    by (vm_compute; reflexivity).
  split; [exact Hrun|].
  destruct (C4_one_exchange_one_retry twice401 (0, 0) (2, 1) transport
              getManifest _ tr Hrun) as (Hdo & Hrt & Hlast).
  split; [exact Hdo|]. split; [exact Hrt|].
  destruct (Hlast 4 resend (Some second401, None)) as (Hlen & Hres & _);
    [lia|reflexivity|].
  split; [exact Hlen|exact Hres].
Defined.

(** C1 (the code departs from it): the registry asks for a token and the
    token endpoint answers 403.  The transport does not return that 403: it
    sends the request again, under [Authorization: Bearer] with an empty
    token, and returns the answer to the resend. *)
Theorem C1_refused_exchange_still_retried :
  run (scripted [(Some bearer401, None); (Some second401, None)]
                [inl forbidden403])
      (tokenAuthTransport.RoundTrip transport getManifest) (0, 0)
  = (Ok (Some second401, None), (2, 1),
     [EvRoundTrip getManifest (Some bearer401, None);
      EvClose bearer401;
      EvDo exchange (inl forbidden403);
      EvRoundTrip (Request.HeaderSet getManifest "Authorization" "Bearer ")
        (Some second401, None)]).
Proof. vm_compute. reflexivity. Qed.

Lemma C5_basic_auth_by_prefix_witness :
  let sent :=
    {| Request.Method := "GET";
       Request.URL :=
         {| path := "https://registry.example/v2/acme/widget/manifests/1.0.0";
            RawQuery := EmptyString |};
       Request.Header :=
         {[ "Authorization" := ["Basic am9zaGRrOmh1bnRlcjI="];
            "Accept" :=
              [Str.Join [ociManifestV1MIME; ociIndexV1MIME;
                         dockerManifestListV2MIME; dockerManifestV2MIME]
                 ", "] ]};
       Request.Body := None |} in
  (run (scripted [(Some manifest200, None)] [])
       (basicAuthTransport.RoundTrip injector getManifest) (0, 0)
   = (Some manifest200, None, (1, 0),
      [EvRoundTrip sent (Some manifest200, None)])
   ∧ Header.Get (Request.Header sent) "Authorization"
     = "Basic am9zaGRrOmh1bnRlcjI=")
  ∧ run (scripted [(Some token200, None)] [])
        (basicAuthTransport.RoundTrip injector getToken) (0, 0)
    = (Some token200, None, (1, 0),
       [EvRoundTrip getToken (Some token200, None)]).
Proof.
  intros sent.
  assert (basicAuthTransport.Username injector ≠ EmptyString
          ∨ basicAuthTransport.Password injector ≠ EmptyString) as Hcred
    by (left; discriminate).
  split.
  - exact (proj1 (C5_basic_auth_by_prefix
                    (scripted [(Some manifest200, None)] []) (0, 0)
                    injector getManifest) eq_refl Hcred).
  - exact (proj1 (proj2 (C5_basic_auth_by_prefix
                           (scripted [(Some token200, None)] []) (0, 0)
                           injector getToken)) eq_refl).
Defined.

Lemma C8_get_failure_no_put_witness :
  let res := Some (ErrHttp
                     {| HttpError.Status := "404 Not Found";
                        HttpError.URL :=
                          "https://registry.example/v2/acme/widget/manifests/1.0.0"
                     |}) in
  let tr := [EvDo getManifest (inl notFound404); EvClose notFound404] in
  run (scripted [] [inl notFound404])
      (Registry.ReTag registry "acme/widget" "1.0.0" "1.0.1") (0, 0)
  = (res, (0, 1), tr)
  ∧ res = Some (ErrHttp
                  {| HttpError.Status := Response.Status notFound404;
                     HttpError.URL :=
                       Registry.URL registry +:+ "/v2/" +:+ "acme/widget"
                         +:+ "/manifests/" +:+ "1.0.0" |})
  ∧ Request.Method getManifest = "GET"
  ∧ tr = [EvDo getManifest (inl notFound404); EvClose notFound404].
Proof.
  intros res tr.
  assert (run (scripted [] [inl notFound404])
              (Registry.ReTag registry "acme/widget" "1.0.0" "1.0.1") (0, 0)
          = (res, (0, 1), tr)) as Hrun
    by (vm_compute; reflexivity).
  split; [exact Hrun|].
  apply (C8_get_failure_no_put (scripted [] [inl notFound404]) (0, 0) (0, 1)
           registry "acme/widget" "1.0.0" "1.0.1" res tr getManifest
           notFound404 Hrun); [reflexivity|discriminate].
Defined.

Lemma C9_put_copies_manifest_witness :
  let tr := [EvDo getManifest (inl manifest200);
             EvDo putManifest (inl created201);
             EvClose created201; EvClose manifest200] in
  run (scripted [] [inl manifest200; inl created201])
      (Registry.ReTag registry "acme/widget" "1.0.0" "1.0.1") (0, 0)
  = (None, (0, 2), tr)
  ∧ ∃ putReq a,
      tr !! 1 = Some (EvDo putReq a)
      ∧ Request.Method putReq = "PUT"
      ∧ Request.URL putReq = Request.URL putManifest
      ∧ Request.Body putReq = Some (Body.data (Response.Body manifest200))
      ∧ Header.Get (Request.Header putReq) "Content-Type"
        = Header.Get (Response.Header manifest200) "Content-Type"
      ∧ countEvents isDo tr = 2.
Proof.
  intros tr.
  assert (run (scripted [] [inl manifest200; inl created201])
              (Registry.ReTag registry "acme/widget" "1.0.0" "1.0.1") (0, 0)
          = (None, (0, 2), tr)) as Hrun
    by (vm_compute; reflexivity).
  split; [exact Hrun|].
  apply (C9_put_copies_manifest
           (scripted [] [inl manifest200; inl created201]) (0, 0) (0, 2)
           registry "acme/widget" "1.0.0" "1.0.1" None tr getManifest
           manifest200 (Request.URL putManifest) Hrun);
    reflexivity.
Defined.

End Examples.

(** * Further properties of the code *)

(** ** The octet table *)

(** X1: the table that [init] fills marks as token bytes exactly the token
    characters of RFC 7230 (digits, letters and the fifteen marks), and as
    space bytes exactly the space, the tab, the carriage return and the line
    feed; no byte is both, and no byte above 127 is either. *)
Theorem octetTypes_token_and_space_bytes c :
  isTokenByte c = Str.ContainsRune (Str.bytes tchars) c
  ∧ isSpaceByte c = Str.ContainsRune spaces c
  ∧ isTokenByte c && isSpaceByte c = false
  ∧ ((127 < N_of_ascii c)%N → octetTypes c = 0%N).
Proof.
  destruct c as [[] [] [] [] [] [] [] []];
    (split; [reflexivity|split; [reflexivity|split; [reflexivity|]]]);
    vm_compute; first [reflexivity | discriminate | intros; reflexivity].
Qed.

(** ** The lexer *)







(** ** Header values that cannot make the parser panic *)

Lemma noBackslash_from n s : noBackslash s → noBackslash (Str.from n s).
Proof.
  revert s. induction n as [|n IH]; intros [|c s]; simpl; try done.
  intros [_ Hs]%andb_True. by apply IH.
Qed.

Lemma noBackslash_skipSpace s : noBackslash s → noBackslash (skipSpace s).
Proof. apply noBackslash_from. Qed.

Lemma quoted_noBackslash s i rest :
  noBackslash rest →
  ∃ v r, quoted s i rest = Ok (v, r) ∧ noBackslash r.
Proof.
  revert i. induction rest as [|c rest IH]; intros i Hrest; simpl.
  { by eexists _, _. }
  simpl in Hrest. apply andb_True in Hrest as [Hc Hrest].
  fold (noBackslash rest) in Hrest.
  destruct (decide (c = dquote)); [eexists _, _; split; [reflexivity|done]|].
  rewrite decide_False; [by apply IH|].
  intros ->. by apply negb_True in Hc.
Qed.

Lemma expectTokenOrQuoted_noBackslash s :
  noBackslash s →
  ∃ v r, expectTokenOrQuoted s = Ok (v, r) ∧ noBackslash r.
Proof.
  intros Hs. destruct s as [|c s]; unfold expectTokenOrQuoted.
  { by eexists _, _. }
  case_decide.
  - apply quoted_noBackslash. simpl in Hs. by apply andb_True in Hs as [_ Hs].
  - eexists _, _. split; [reflexivity|]. by apply noBackslash_from.
Qed.

Ltac noBackslash_tail :=
  repeat first [ assumption
               | apply noBackslash_from
               | apply noBackslash_skipSpace ].

Lemma paramsLoop_noBackslash s params :
  noBackslash s → ∃ r, paramsLoop s params = Ok r.
Proof.
  funelim (paramsLoop s params); intros Hs; try (by eexists).
  - match goal with
    | E : expectTokenOrQuoted ?x = IndexOutOfRange _ _ |- _ =>
        destruct (expectTokenOrQuoted_noBackslash x) as (v & r & E' & _);
          [noBackslash_tail|congruence]
    end.
  - match goal with IH : Is_true (noBackslash _) → _ |- _ => apply IH end.
    match goal with
    | E : expectTokenOrQuoted ?x = Ok _ |- _ =>
        destruct (expectTokenOrQuoted_noBackslash x) as (v & r & E' & Hr);
          [noBackslash_tail|]
    end.
    apply noBackslash_skipSpace. congruence.
Qed.

Lemma parseValueAndParams_noBackslash header :
  noBackslash header → ∃ v p, parseValueAndParams header = Ok (v, p).
Proof.
  intros Hh. unfold parseValueAndParams.
  destruct (expectToken header) as [value s] eqn:E.
  destruct (Str.is_empty value); [by eexists _, _|].
  destruct (paramsLoop_noBackslash ("," +:+ skipSpace s) ∅) as [r ->];
    [|by eexists _, _].
  injection E as _ <-.
  by apply noBackslash_skipSpace, noBackslash_from.
Qed.

Lemma parseAuthValues_noBackslash values challenges :
  Forall (λ h, noBackslash h) values →
  ∃ cs, parseAuthValues values challenges = Ok cs.
Proof.
  intros Hall. revert challenges.
  induction Hall as [|h values Hh _ IH]; intros challenges; simpl.
  { by eexists. }
  destruct (parseValueAndParams_noBackslash h Hh) as (v & p & ->).
  destruct (Str.is_empty v); apply IH.
Qed.

(** X5: a response whose [WWW-Authenticate] values hold no backslash never
    makes the challenge parser panic: [parseAuthHeader] returns, whatever
    else the values hold (quotes that are not closed, stray commas, bytes
    that are no token bytes), and also when the header is missing. *)
Theorem parseAuthHeader_returns_without_backslash `{GoLib url_URL}
    (header : gmap string (list string)) :
  Forall (λ h, noBackslash h)
    (index_values header (http_CanonicalHeaderKey "WWW-Authenticate")) →
  ∃ challenges, parseAuthHeader header = Ok challenges.
Proof. apply parseAuthValues_noBackslash. Qed.

(** ** Quoted values that are not closed *)

Lemma quoted_unterminated s i v :
  allBytes plainByte v → quoted s i v = Ok (EmptyString, EmptyString).
Proof.
  revert i. induction v as [|c v IH]; intros i Hv; [done|].
  simpl in Hv. apply andb_True in Hv as [Hc Hv].
  apply andb_True in Hc as [Hq Hb]. simpl.
  rewrite decide_False by (intros ->; by apply negb_True in Hq).
  rewrite decide_False by (intros ->; by apply negb_True in Hb).
  by apply IH.
Qed.

(** X6: a quoted value that is never closed (an opening quote, then bytes
    none of which is a quote or a backslash, up to the end of the header)
    is read as the empty value with nothing left after it; the parser does
    not panic.  In a header, the parameter with such a value is not stored
    and ends the list: the parameters before it are the result. *)
Theorem unterminated_quote_reads_as_empty :
  (∀ v, allBytes plainByte v →
        expectTokenOrQuoted (String dquote v) = Ok (EmptyString, EmptyString))
  ∧ (∀ scheme ps key v,
       token scheme → Forall (λ kv, wellFormed kv) ps → token key →
       allBytes plainByte v →
       parseValueAndParams
         (scheme +:+ " "
            +:+ Str.Join ((item <$> ps) ++ [key +:+ "=" +:+ String dquote v]) ",")
       = Ok (Str.ToLower scheme, storeAll ∅ ps)).
Proof.
  assert (∀ v, allBytes plainByte v →
               expectTokenOrQuoted (String dquote v)
               = Ok (EmptyString, EmptyString)) as Hlex.
  { intros v Hv. unfold expectTokenOrQuoted. rewrite decide_True by done.
    by apply quoted_unterminated. }
  split; [exact Hlex|]. intros scheme ps key v Hsch Hps Hkey Hv.
  eapply parseValueAndParams_empty_value; try done. by apply Hlex.
Qed.

(** ** Where the decoding of an escape resumes *)

(** The outer loop on bytes that are neither quote nor backslash. *)
Lemma quoted_skip s i pre rest :
  allBytes plainByte pre →
  quoted s i (pre +:+ rest) = quoted s (i + String.length pre) rest.
Proof.
  revert i. induction pre as [|c pre IH]; intros i Hpre.
  { rewrite app_empty. simpl. by rewrite Nat.add_0_r. }
  simpl in Hpre. apply andb_True in Hpre as [Hc Hpre].
  apply andb_True in Hc as [Hq Hb]. rewrite app_String. simpl.
  rewrite decide_False by (intros ->; by apply negb_True in Hq).
  rewrite decide_False by (intros ->; by apply negb_True in Hb).
  rewrite IH by done. f_equal. lia.
Qed.

Lemma of_bytes_app p q : Str.of_bytes (p ++ q) = Str.of_bytes p +:+ Str.of_bytes q.
Proof. induction p as [|c p IH]; [done|]. simpl. rewrite app_String. by f_equal. Qed.

Lemma of_bytes_bytes s : Str.of_bytes (Str.bytes s) = s.
Proof. induction s as [|c s IH]; [done|]. simpl. by f_equal. Qed.

Lemma length_bytes s : length (Str.bytes s) = String.length s.
Proof. induction s as [|c s IH]; [done|]. simpl. by f_equal. Qed.

Lemma length_app_str s t :
  String.length (s +:+ t) = String.length s + String.length t.
Proof. induction s as [|c s IH]; [done|]. rewrite app_String. simpl. by f_equal. Qed.

(** The inner loop on bytes that are neither quote nor backslash, up to the
    closing quote: they are stored after the [j] bytes the buffer holds. *)
Lemma unescape_plain tail rest pfx junk :
  allBytes plainByte tail → String.length tail ≤ length junk →
  unescape (tail +:+ String dquote rest) false (pfx ++ junk) (length pfx)
  = Ok (Str.of_bytes pfx +:+ tail, rest).
Proof.
  revert pfx junk. induction tail as [|c tail IH]; intros pfx junk Htail Hroom.
  { rewrite app_empty. simpl. by rewrite take_app_length, app_empty_r. }
  simpl in Htail. apply andb_True in Htail as [Hc Htail].
  apply andb_True in Hc as [Hq Hb]. rewrite app_String. simpl.
  rewrite decide_False by (intros ->; by apply negb_True in Hb).
  rewrite decide_False by (intros ->; by apply negb_True in Hq).
  destruct junk as [|x junk]; [simpl in Hroom; lia|].
  rewrite store_room by (rewrite length_app; simpl; lia).
  replace (<[length pfx:=c]> (pfx ++ x :: junk)) with ((pfx ++ [c]) ++ junk).
  2:{ rewrite insert_app_r_alt by lia. rewrite Nat.sub_diag. simpl.
      by rewrite <- app_assoc. }
  replace (S (length pfx)) with (length (pfx ++ [c]))
    by (rewrite length_app; simpl; lia).
  rewrite IH; [|done|simpl in Hroom; lia].
  rewrite of_bytes_app. simpl. by rewrite app_assoc_string.
Qed.

(** X7: how a quoted value with an escape is decoded.  When the first
    backslash of the value is at index [i], after [i] bytes that are neither
    quote nor backslash ([i] at least 1), the decoding resumes at index
    [i + i] and not at [i + 1]: the [i - 1] bytes after the backslash are
    dropped, whatever they are, and the byte at index [i + i] is taken as the
    escaped byte.  The value is the bytes before the backslash, that byte,
    and the bytes up to the closing quote.  For [i = 1] nothing is dropped
    and the escape is decoded as written. *)
Theorem escape_resumes_at_twice_the_index pre skipped b tail rest :
  allBytes plainByte pre → allBytes plainByte tail →
  S (String.length skipped) = String.length pre →
  expectTokenOrQuoted
    (String dquote
       (pre +:+ String backslash
          (skipped +:+ String b (tail +:+ String dquote rest))))
  = Ok (pre +:+ String b tail, rest).
Proof.
  intros Hpre Htail Hlen. unfold expectTokenOrQuoted.
  rewrite decide_True by done.
  set (s := pre +:+ String backslash
              (skipped +:+ String b (tail +:+ String dquote rest))).
  unfold s at 2. rewrite quoted_skip by done. simpl.
  assert (Str.upto (String.length pre) s = pre) as -> by apply upto_app.
  assert (Str.from (String.length pre + String.length pre) s
          = String b (tail +:+ String dquote rest)) as ->.
  { unfold s.
    replace (pre +:+ String backslash
               (skipped +:+ String b (tail +:+ String dquote rest)))
      with ((pre +:+ String backslash skipped)
              +:+ String b (tail +:+ String dquote rest))
      by (by rewrite app_assoc_string, app_String).
    replace (String.length pre + String.length pre)
      with (String.length (pre +:+ String backslash skipped))
      by (rewrite length_app_str; simpl; lia).
    apply from_app. }
  assert (String.length s
          = String.length pre + String.length pre + 1 + String.length tail
            + 1 + String.length rest) as Hs.
  { unfold s. rewrite length_app_str. simpl. rewrite length_app_str. simpl.
    rewrite length_app_str. simpl. lia. }
  clearbody s. rewrite length_replicate, length_bytes.
  rewrite Nat.min_r by lia.
  rewrite take_ge by (rewrite length_bytes; lia).
  simpl unescape.
  rewrite store_room
    by (rewrite length_app, length_bytes, length_drop, length_replicate; lia).
  set (junk := drop (String.length pre)
                 (replicate (String.length s - 1) "000"%char)).
  assert (length junk = String.length pre + 1 + String.length tail
                        + String.length rest) as Hjunk
    by (unfold junk; rewrite length_drop, length_replicate; lia).
  destruct junk as [|x junk']; [simpl in Hjunk; lia|].
  replace (<[String.length pre:=b]> (Str.bytes pre ++ x :: junk'))
    with ((Str.bytes pre ++ [b]) ++ junk').
  2:{ rewrite insert_app_r_alt by (rewrite length_bytes; lia).
      rewrite length_bytes, Nat.sub_diag. simpl. by rewrite <- app_assoc. }
  replace (S (String.length pre)) with (length (Str.bytes pre ++ [b]))
    by (rewrite length_app, length_bytes; simpl; lia).
  rewrite unescape_plain; [|done|simpl in Hjunk; lia].
  rewrite of_bytes_app, of_bytes_bytes. simpl.
  by rewrite app_assoc_string.
Qed.

(** ** Parameters in any number *)

Lemma paramsLoop_all_items ps params :
  Forall (λ kv, wellFormed kv) ps →
  paramsLoop ("," +:+ Str.Join (item <$> ps) ",") params
  = Ok (storeAll params ps).
Proof.
  intros Hps. destruct (decide (ps = [])) as [->|Hne].
  { simpl. by rewrite paramsLoop_turn. }
  destruct (exists_last Hne) as (ps' & [k v] & ->).
  apply Forall_app in Hps as [Hps' [[Hk Hv]%andb_True _]%Forall_cons].
  rewrite fmap_app. simpl fmap.
  rewrite paramsLoop_items by done. unfold item. simpl fst. simpl snd.
  rewrite paramsLoop_last by done. unfold storeAll. by rewrite foldl_app.
Qed.

Lemma spaceEnd_items ps :
  Forall (λ kv, wellFormed kv) ps → spaceEnd (Str.Join (item <$> ps) ",") = 0.
Proof.
  destruct ps as [|[k v] ps]; [done|].
  intros [[Hk Hv]%andb_True Hps]%Forall_cons.
  destruct ps as [|kv ps].
  - simpl. unfold item. simpl fst. by apply spaceEnd_token.
  - rewrite fmap_cons, Join_cons by done. unfold item at 1. simpl fst.
    rewrite !app_assoc_string. by apply spaceEnd_token.
Qed.

Lemma storeAll_last (params : gmap string string) ps1 k v ps2 :
  Forall (λ kv, Str.ToLower kv.1 ≠ Str.ToLower k) ps2 →
  storeAll params (ps1 ++ (k, v) :: ps2) !! Str.ToLower k = Some v.
Proof.
  unfold storeAll. rewrite foldl_app. simpl.
  pose proof (lookup_insert_eq
                (foldl (λ m kv, <[Str.ToLower kv.1:=kv.2]> m) params ps1)
                (Str.ToLower k) v) as Hm.
  revert Hm.
  generalize (<[Str.ToLower k:=v]>
                (foldl (λ m kv, <[Str.ToLower kv.1:=kv.2]> m) params ps1)).
  intros m Hm Hps2. revert m Hm.
  induction Hps2 as [|[k' v'] ps2 Hk _ IH]; intros m Hm; [done|].
  simpl. apply IH. by rewrite lookup_insert_ne.
Qed.

(** X8: a header of a scheme and any number of parameters, each a token,
    an equals sign and a quoted value without quote or backslash, separated
    by commas, yields the lower-cased scheme and every parameter, stored
    under its lower-cased key.  When two parameters have the same key (in
    any spelling of upper and lower case), the later one is the one kept. *)
Theorem parameters_stored_later_wins scheme ps :
  token scheme → Forall (λ kv, wellFormed kv) ps →
  parseValueAndParams (scheme +:+ " " +:+ Str.Join (item <$> ps) ",")
  = Ok (Str.ToLower scheme, storeAll ∅ ps)
  ∧ ∀ ps1 k v ps2,
      ps = ps1 ++ (k, v) :: ps2 →
      Forall (λ kv, Str.ToLower kv.1 ≠ Str.ToLower k) ps2 →
      storeAll ∅ ps !! Str.ToLower k = Some v.
Proof.
  intros Hsch Hps. split.
  - rewrite parseValueAndParams_scheme by (done || by apply spaceEnd_items).
    by rewrite paramsLoop_all_items.
  - intros ps1 k v ps2 -> Hps2. by apply storeAll_last.
Qed.

(** ** White space and values without quotes *)

(** A fact about one byte, by the 256 cases. *)
Ltac by_bytes c :=
  destruct c as [[] [] [] [] [] [] [] []]; vm_compute;
  first [ reflexivity | discriminate | tauto | intros _; discriminate ].

Lemma space_not_token c : isSpaceByte c → isTokenByte c = false.
Proof. by_bytes c. Qed.

Lemma space_not_equals c : isSpaceByte c → c ≠ "="%char.
Proof. by_bytes c. Qed.

Lemma token_not_quote c : isTokenByte c → c ≠ dquote.
Proof. by_bytes c. Qed.

Lemma skipSpace_spaces sp rest :
  allBytes isSpaceByte sp → spaceEnd rest = 0 → skipSpace (sp +:+ rest) = rest.
Proof.
  intros Hsp Hrest. induction sp as [|c sp IH].
  { rewrite app_empty. by apply skipSpace_id. }
  simpl in Hsp. apply andb_True in Hsp as [Hc Hsp].
  rewrite app_String. unfold skipSpace in *. simpl.
  unfold isSpaceByte in Hc. destruct (_ =? _)%N; [done|]. by apply IH.
Qed.

Lemma tokenEnd_spaces sp rest :
  allBytes isSpaceByte sp → tokenEnd rest = 0 → tokenEnd (sp +:+ rest) = 0.
Proof.
  intros Hsp Hrest. destruct sp as [|c sp]; [by rewrite app_empty|].
  simpl in Hsp. apply andb_True in Hsp as [Hc%space_not_token _].
  rewrite app_String. simpl. unfold isTokenByte in Hc.
  by destruct (_ =? _)%N.
Qed.

Lemma expectTokenOrQuoted_token v rest :
  token v → tokenEnd rest = 0 → expectTokenOrQuoted (v +:+ rest) = Ok (v, rest).
Proof.
  intros [Hne Hv]%andb_True Hrest. destruct v as [|c v]; [done|].
  rewrite app_String. unfold expectTokenOrQuoted.
  simpl in Hv. apply andb_True in Hv as Hv'. destruct Hv' as [Hc _].
  rewrite decide_False by (by apply token_not_quote).
  rewrite <- app_String. by rewrite expectToken_app.
Qed.

(** A parameter [key=value] with a token for value, white space before the
    key and after the value, and then a comma or the end of the header. *)
Lemma paramsLoop_bare_item sp1 k v sp2 rest params :
  allBytes isSpaceByte sp1 → token k → token v → allBytes isSpaceByte sp2 →
  spaceEnd rest = 0 → tokenEnd rest = 0 →
  paramsLoop ("," +:+ sp1 +:+ k +:+ "=" +:+ v +:+ sp2 +:+ rest) params
  = paramsLoop rest (<[Str.ToLower k := v]> params).
Proof.
  intros Hsp1 Hk Hv Hsp2 Hrest1 Hrest2. rewrite paramsLoop_turn.
  rewrite app_String, app_empty, HasPrefix_String. simpl Str.from.
  rewrite skipSpace_spaces by (done || by apply spaceEnd_token).
  apply andb_True in Hk as Hk'. destruct Hk' as [Hk1 Hk2].
  rewrite expectToken_app by done.
  destruct (Str.is_empty k); [done|].
  rewrite app_String, app_empty, HasPrefix_String. simpl Str.from.
  rewrite expectTokenOrQuoted_token by (done || by apply tokenEnd_spaces).
  apply andb_True in Hv as [Hv1 Hv2]. destruct (Str.is_empty v); [done|].
  by rewrite skipSpace_spaces.
Qed.

(** X9: white space is allowed between the scheme and the first parameter
    and on both sides of a comma, and a value may be a token without quotes:
    a header of a scheme, white space, [k1=v1], a comma with white space
    around it or none, and [k2=v2] followed by white space or nothing
    yields the lower-cased scheme and both parameters under their
    lower-cased keys. *)
Theorem spaces_and_bare_values scheme sp0 k1 v1 sp1 sp2 k2 v2 sp3 :
  token scheme → token k1 → token v1 → token k2 → token v2 →
  allBytes isSpaceByte sp0 → sp0 ≠ EmptyString →
  allBytes isSpaceByte sp1 → allBytes isSpaceByte sp2 →
  allBytes isSpaceByte sp3 →
  parseValueAndParams
    (scheme +:+ sp0 +:+ k1 +:+ "=" +:+ v1 +:+ sp1 +:+ "," +:+ sp2
       +:+ k2 +:+ "=" +:+ v2 +:+ sp3)
  = Ok (Str.ToLower scheme,
        <[Str.ToLower k2 := v2]> (<[Str.ToLower k1 := v1]> ∅)).
Proof.
  intros Hsch Hk1 Hv1 Hk2 Hv2 Hsp0 Hne Hsp1 Hsp2 Hsp3.
  unfold parseValueAndParams.
  apply andb_True in Hsch as Hsch'. destruct Hsch' as [Hs1 Hs2].
  rewrite expectToken_app; [|done|].
  2:{ destruct sp0 as [|c sp0]; [done|].
      change (tokenEnd ((String c sp0) +:+ (k1 +:+ "=" +:+ v1 +:+ sp1 +:+ ","
                +:+ sp2 +:+ k2 +:+ "=" +:+ v2 +:+ sp3)) = 0).
      simpl in Hsp0. apply andb_True in Hsp0 as [Hc%space_not_token _].
      rewrite app_String. simpl. unfold isTokenByte in Hc.
      by destruct (_ =? _)%N. }
  destruct (Str.is_empty scheme); [done|]. cbv iota beta zeta.
  rewrite skipSpace_spaces by (done || by apply spaceEnd_token).
  replace ("," +:+ k1 +:+ "=" +:+ v1 +:+ sp1 +:+ "," +:+ sp2
             +:+ k2 +:+ "=" +:+ v2 +:+ sp3)
    with ("," +:+ EmptyString +:+ k1 +:+ "=" +:+ v1 +:+ sp1 +:+
            ("," +:+ sp2 +:+ k2 +:+ "=" +:+ v2 +:+ sp3 +:+ EmptyString)).
  2:{ by rewrite !app_empty_r, app_empty. }
  rewrite paramsLoop_bare_item by done.
  rewrite paramsLoop_bare_item by done.
  by rewrite paramsLoop_empty.
Qed.

(** ** White space around the equals sign *)

Lemma space_not_quote c : isSpaceByte c → c ≠ dquote.
Proof. by_bytes c. Qed.

Lemma HasPrefix_other c d s :
  c ≠ d → Str.HasPrefix (String c s) (String d EmptyString) = false.
Proof.
  intros Hne.
  change (Str.HasPrefix (String c s) (String d EmptyString))
    with (if ascii_dec d c then String.prefix EmptyString s else false).
  destruct (ascii_dec d c); [by subst|done].
Qed.

(** The loop at a parameter whose key is followed by white space, or whose
    equals sign is: it returns the parameters it has. *)
Lemma paramsLoop_space_at_equals k c sp rest params :
  token k → isSpaceByte c → 
  paramsLoop ("," +:+ k +:+ String c sp +:+ "=" +:+ rest) params = Ok params
  ∧ paramsLoop ("," +:+ k +:+ "=" +:+ String c sp +:+ rest) params = Ok params.
Proof.
  intros Hk Hc. apply andb_True in Hk as Hk'. destruct Hk' as [Hk1 Hk2].
  assert (tokenEnd (String c sp +:+ "=" +:+ rest) = 0) as Hsp1.
  { apply space_not_token in Hc. rewrite app_String. simpl.
    unfold isTokenByte in Hc. by destruct (_ =? _)%N. }
  assert (tokenEnd (String c sp +:+ rest) = 0) as Hsp2.
  { apply space_not_token in Hc. rewrite app_String. simpl.
    unfold isTokenByte in Hc. by destruct (_ =? _)%N. }
  split; rewrite paramsLoop_turn;
    rewrite app_String, app_empty, HasPrefix_String; simpl Str.from;
    rewrite skipSpace_id by (by apply spaceEnd_token).
  - rewrite expectToken_app by done.
    destruct (Str.is_empty k); [done|].
    rewrite app_String. by rewrite HasPrefix_other by (by apply space_not_equals).
  - rewrite expectToken_app by done.
    destruct (Str.is_empty k); [done|].
    rewrite app_String, app_empty, HasPrefix_String. simpl Str.from.
    unfold expectTokenOrQuoted. rewrite app_String.
    rewrite decide_False by (by apply space_not_quote).
    rewrite <- app_String. unfold expectToken. rewrite Hsp2. simpl.
    done.
Qed.

Lemma spaceEnd_joined ps last :
  Forall (λ kv, wellFormed kv) ps → spaceEnd last = 0 →
  spaceEnd (Str.Join ((item <$> ps) ++ [last]) ",") = 0.
Proof.
  intros Hps Hlast. destruct ps as [|[k v] ps]; [done|].
  apply Forall_cons in Hps as [[Hk Hv]%andb_True Hps].
  rewrite fmap_cons, <- app_comm_cons, Join_cons by (by destruct (item <$> ps)).
  unfold item at 1. simpl fst. rewrite !app_assoc_string.
  by apply spaceEnd_token.
Qed.

(** X10: no white space is allowed around the equals sign of a parameter.
    A parameter whose key is followed by white space, or whose equals sign
    is, ends the list: the header yields the lower-cased scheme and the
    parameters before that one, and what follows it is not read. *)
Theorem space_at_equals_ends_parameters scheme ps k c sp rest :
  token scheme → Forall (λ kv, wellFormed kv) ps → token k → isSpaceByte c →
  parseValueAndParams
    (scheme +:+ " "
       +:+ Str.Join ((item <$> ps) ++ [k +:+ String c sp +:+ "=" +:+ rest]) ",")
  = Ok (Str.ToLower scheme, storeAll ∅ ps)
  ∧ parseValueAndParams
      (scheme +:+ " "
         +:+ Str.Join ((item <$> ps) ++ [k +:+ "=" +:+ String c sp +:+ rest]) ",")
    = Ok (Str.ToLower scheme, storeAll ∅ ps).
Proof.
  intros Hsch Hps Hk Hc.
  split; rewrite parseValueAndParams_scheme;
    try done; try (apply spaceEnd_joined; [done|by apply spaceEnd_token]);
    rewrite paramsLoop_items by done.
  - by rewrite (proj1 (paramsLoop_space_at_equals k c sp rest _ Hk Hc)).
  - by rewrite (proj2 (paramsLoop_space_at_equals k c sp rest _ Hk Hc)).
Qed.

(** ** What every challenge looks like *)

Lemma lower_lower c : Str.lower (Str.lower c) = Str.lower c.
Proof. by_bytes c. Qed.

Lemma ToLower_ToLower s : Str.ToLower (Str.ToLower s) = Str.ToLower s.
Proof. induction s as [|c s IH]; [done|]. simpl. by rewrite lower_lower, IH. Qed.

Lemma token_upto s :
  Str.is_empty (Str.upto (tokenEnd s) s) = false →
  token (Str.ToLower (Str.upto (tokenEnd s) s)).
Proof.
  intros Hne. rewrite token_ToLower. unfold token. rewrite Hne. simpl.
  apply tokenEnd_upto.
Qed.

Lemma lowerKeys_insert params key value :
  token key → lowerKeys params →
  lowerKeys (<[Str.ToLower key := value]> params).
Proof.
  intros Hk Hp key' value'. rewrite lookup_insert. case_decide as E.
  - intros _. subst key'. by rewrite token_ToLower, ToLower_ToLower.
  - apply Hp.
Qed.

Lemma paramsLoop_lowerKeys s params r :
  lowerKeys params → paramsLoop s params = Ok r → lowerKeys r.
Proof.
  funelim (paramsLoop s params); intros Hp Hr;
    try (by injection Hr as <-); try done.
  match goal with
  | IH : ∀ r, lowerKeys _ → _ |- _ => apply IH; [|done]
  end.
  apply lowerKeys_insert; [|done].
  rewrite <- token_ToLower. by apply token_upto.
Qed.

Lemma parseValueAndParams_shape header v p :
  parseValueAndParams header = Ok (v, p) →
  Str.is_empty v = false →
  wellShaped {| Scheme := v; Parameters := p |}.
Proof.
  intros Hparse Hv. unfold wellShaped. simpl.
  pose proof (parseValueAndParams_nonEmptyValues _ _ _ Hparse) as Hne.
  revert Hparse. unfold parseValueAndParams, expectToken.
  destruct (Str.is_empty (Str.upto (tokenEnd header) header)) eqn:E.
  { intros [= <- _]. congruence. }
  destruct (paramsLoop _ _) as [r|] eqn:Hloop; [|done].
  intros [= <- <-]. split; [by apply token_upto|].
  split; [apply ToLower_ToLower|]. split; [|done].
  eapply paramsLoop_lowerKeys; [|done]. intros k x. by rewrite lookup_empty.
Qed.

Lemma parseAuthValues_shape values acc cs :
  Forall wellShaped acc → parseAuthValues values acc = Ok cs →
  Forall wellShaped cs ∧ length cs ≤ length acc + length values.
Proof.
  revert acc. induction values as [|h values IH]; intros acc Hacc; simpl.
  { intros [= <-]. split; [done|lia]. }
  destruct (parseValueAndParams h) as [[v p]|] eqn:Hh; [|done].
  destruct (Str.is_empty v) eqn:Hv.
  - intros [Hcs Hlen]%IH; [|done]. split; [done|lia].
  - intros [Hcs Hlen]%IH.
    + split; [done|]. rewrite length_app in Hlen. simpl in Hlen. lia.
    + apply Forall_app. split; [done|]. apply Forall_singleton.
      by apply (parseValueAndParams_shape h).
Qed.

(** X11: what [parseAuthHeader] returns has at most one challenge for each
    value of the header, and every challenge has a scheme that is a token
    in lower case (never empty), parameter keys that are tokens in lower
    case, and parameter values that are not empty.  So a parameter is found
    under its lower-case name however the header spells it, and under no
    other name. *)
Theorem parseAuthHeader_challenges_shape `{GoLib url_URL}
    (header : gmap string (list string)) (challenges : list authChallenge) :
  parseAuthHeader header = Ok challenges →
  length challenges
    ≤ length (index_values header (http_CanonicalHeaderKey "WWW-Authenticate"))
  ∧ Forall (λ c, token (Scheme c) ∧ Str.ToLower (Scheme c) = Scheme c
                 ∧ ∀ key value, Parameters c !! key = Some value →
                     token key ∧ Str.ToLower key = key
                     ∧ value ≠ EmptyString)
      challenges.
Proof.
  intros [Hcs Hlen]%parseAuthValues_shape; [|done]. split; [done|].
  eapply Forall_impl; [done|]. intros c (Hs1 & Hs2 & Hk & Hv).
  split; [done|]. split; [done|]. intros key value Hlook.
  destruct (Hk _ _ Hlook) as [Hk1 Hk2]. split; [done|]. split; [done|].
  by eapply Hv.
Qed.

(** ** The runs of the bearer retry transport *)

Section MoreTransports.
Context `{GoLib url_URL}.
Import tokenAuthTransport.

(** The five ways [authAndRetry] runs. *)
Lemma authAndRetry_cases {W} (net : network url_URL W) (w w' : W)
    (t : tokenAuthTransport.t) (challenge : bearerAuthChallenge)
    (req : Request.t url_URL) (res : roundTripResult)
    (tr : list (event url_URL)) :
  run net (authAndRetry t challenge req) w = (res, w', tr) →
  (∃ e, tr = [] ∧ res = (None, Some e))
  ∨ (∃ authRequest e,
       tokenRequest t authRequest
       ∧ tr = [EvDo authRequest (inr e)] ∧ res = (None, Some e))
  ∨ (∃ authRequest response e,
       tokenRequest t authRequest
       ∧ tr = [EvDo authRequest (inl response); EvClose response]
       ∧ Response.StatusCode response = StatusOK
       ∧ json_DecodeToken (Response.Body response) = inr e
       ∧ res = (None, Some e))
  ∨ (∃ authRequest response,
       tokenRequest t authRequest
       ∧ tr = [EvDo authRequest (inl response);
               EvRoundTrip (Request.HeaderSet req "Authorization" "Bearer ") res]
       ∧ Response.StatusCode response ≠ StatusOK)
  ∨ (∃ authRequest response token,
       tokenRequest t authRequest
       ∧ tr = [EvDo authRequest (inl response); EvClose response;
               EvRoundTrip
                 (Request.HeaderSet req "Authorization" ("Bearer " +:+ token))
                 res]
       ∧ Response.StatusCode response = StatusOK
       ∧ json_DecodeToken (Response.Body response) = inl token).
Proof.
  unfold authAndRetry, auth, mbind, mret, Prog_bind, Prog_ret.
  destruct (url_Parse _) as [realmUrl|e]; simpl;
    [|intros [= <- _ <-]; left; by eexists].
  unfold Request.New.
  destruct (http_RequestURL _) as [u|e]; simpl;
    [|intros [= <- _ <-]; left; by eexists].
  match goal with
  | |- context [onDo net ?r w] =>
      assert (tokenRequest t r) as Hreq;
        [|destruct (onDo net r w) as [[response|e] w1]; set (authRequest := r) in *]
  end.
  { unfold tokenRequest.
    by destruct (negb _ || negb _). }
  2:{ simpl. intros [= <- _ <-]. right. left. by eexists _, _. }
  simpl.
  destruct (negb (Response.StatusCode response =? StatusOK)%Z) eqn:Hcode; simpl.
  - apply negb_true_iff, Z.eqb_neq in Hcode.
    change ("Bearer " +:+ EmptyString) with "Bearer ".
    destruct (onRoundTrip net _ w1) as [[resp err] w2]. simpl.
    intros [= <- _ <-]. do 3 right. left. by eexists _, _.
  - apply negb_false_iff, Z.eqb_eq in Hcode.
    destruct (json_DecodeToken _) as [token|e] eqn:Hdec; simpl.
    + destruct (onRoundTrip net _ w1) as [[resp err] w2]. simpl.
      intros [= <- _ <-]. do 4 right. by eexists _, _, _.
    + intros [= <- _ <-]. do 2 right. left. by eexists _, _, _.
Qed.

#[local] Arguments authAndRetry : simpl never.

(** X12: the bearer retry transport hands back, untouched and after the
    one round trip, every answer that is not a 401 without error: an error
    of the wrapped transport (whatever response comes with it, a 401
    included), no response at all, or a response of any other status.  The
    header is not read and nothing is closed. *)
Theorem RoundTrip_passes_through {W} (net : network url_URL W) (w w' : W)
    (t : tokenAuthTransport.t) (req : Request.t url_URL)
    (resp : option Response.t) (err : option error) :
  onRoundTrip net req w = ((resp, err), w') →
  err ≠ None ∨ resp = None
  ∨ (∃ r, resp = Some r ∧ Response.StatusCode r ≠ StatusUnauthorized) →
  run net (RoundTrip t req) w
  = (Ok (resp, err), w', [EvRoundTrip req (resp, err)]).
Proof.
  intros Hnet Hcase. unfold RoundTrip, mbind, mret, Prog_bind, Prog_ret.
  simpl. rewrite Hnet. simpl.
  destruct err as [e|]; [done|]. destruct resp as [r|]; [|done].
  destruct Hcase as [?|[?|(r' & [= <-] & Hcode)]]; try done.
  apply Z.eqb_neq in Hcode. by rewrite Hcode.
Qed.

(** The ways [RoundTrip] runs: the round trip alone, or the round trip
    answered by a 401 whose body is closed, and then a run of
    [authAndRetry]. *)
Lemma RoundTrip_cases {W} (net : network url_URL W) (w w' : W)
    (t : tokenAuthTransport.t) (req : Request.t url_URL)
    (res : outcome roundTripResult) (tr : list (event url_URL)) :
  run net (RoundTrip t req) w = (res, w', tr) →
  (∃ a, tr = [EvRoundTrip req a]
        ∧ (res = Ok a ∨ ∃ i n, res = IndexOutOfRange i n))
  ∨ (∃ r challenge w1 res1 tr1,
       tr = EvRoundTrip req (Some r, None) :: EvClose r :: tr1
       ∧ Response.StatusCode r = StatusUnauthorized
       ∧ res = Ok res1
       ∧ run net (authAndRetry t challenge req) w1 = (res1, w', tr1)).
Proof.
  unfold RoundTrip, mbind, mret, Prog_bind, Prog_ret. simpl.
  destruct (onRoundTrip net req w) as [[resp err] w1].
  assert (∀ x : outcome roundTripResult,
            (x = Ok (resp, err) ∨ ∃ i n, x = IndexOutOfRange i n) →
            (x, w1, [EvRoundTrip req (resp, err)]) = (res, w', tr) →
            (∃ a, tr = [EvRoundTrip req a]
                  ∧ (res = Ok a ∨ ∃ i n, res = IndexOutOfRange i n))
            ∨ (∃ r challenge w1 res1 tr1,
                 tr = EvRoundTrip req (Some r, None) :: EvClose r :: tr1
                 ∧ Response.StatusCode r = StatusUnauthorized
                 ∧ res = Ok res1
                 ∧ run net (authAndRetry t challenge req) w1 = (res1, w', tr1)))
    as Hstop.
  { intros x Hx [= <- _ <-]. left. by exists (resp, err). }
  destruct err as [e|]; [apply Hstop; by left|].
  destruct resp as [r|]; [|apply Hstop; by left].
  destruct (_ =? _)%Z eqn:Hcode; [|apply Hstop; by left].
  destruct (parseAuthHeader _) as [challenges|i n];
    [|apply Hstop; right; by eexists _, _].
  destruct (bearerChallenge challenges) as [bc|]; [|apply Hstop; by left].
  clear Hstop. simpl. rewrite run_bind.
  match goal with
  | |- context [run net (authAndRetry ?a ?b ?c) w1] =>
      destruct (run net (authAndRetry a b c) w1) as [[res1 w2] tr1] eqn:Hretry
  end.
  simpl. intros [= <- <- <-]. right. eexists r, _, w1, res1, tr1.
  rewrite app_nil_r. apply Z.eqb_eq in Hcode. done.
Qed.

(** The event [Hin] says to be in a run that is written out. *)
Ltac in_events Hin :=
  repeat (apply elem_of_cons in Hin as [Hin|Hin];
          [first [discriminate Hin | injection Hin as ? ?; subst]|]);
  try (by apply elem_of_nil in Hin).

(** X13: a token exchange that fails with an error is not followed by a
    resend, and the error is what the transport returns, with no response.
    So it is when [Do] fails, when the token document of a 200 answer cannot
    be decoded (its body is closed all the same), and when no exchange can
    be made at all (the realm is no URL): the run then ends with the closing
    of the 401, which is not returned either. *)
Theorem exchange_error_returned_without_resend {W} (net : network url_URL W)
    (w w' : W) (t : tokenAuthTransport.t) (req : Request.t url_URL)
    (res : outcome roundTripResult) (tr : list (event url_URL)) :
  run net (RoundTrip t req) w = (res, w', tr) →
  (∀ authRequest e,
     EvDo authRequest (inr e) ∈ tr →
     res = Ok (None, Some e) ∧ countEvents isRoundTrip tr = 1
     ∧ last tr = Some (EvDo authRequest (inr e)))
  ∧ (∀ authRequest response e,
       EvDo authRequest (inl response) ∈ tr →
       Response.StatusCode response = StatusOK →
       json_DecodeToken (Response.Body response) = inr e →
       res = Ok (None, Some e) ∧ countEvents isRoundTrip tr = 1
       ∧ last tr = Some (EvClose response))
  ∧ (∀ r, tr = [EvRoundTrip req (Some r, None); EvClose r] →
          ∃ e, res = Ok (None, Some e)).
Proof.
  intros [(a & -> & _)|(r & challenge & w1 & res1 & tr1 & -> & Hcode & -> & Hretry)]
    %RoundTrip_cases.
  { split; [|split].
    - by intros authRequest e [=]%list_elem_of_singleton.
    - by intros authRequest response e [=]%list_elem_of_singleton.
    - by intros r [=]. }
  apply authAndRetry_cases in Hretry. destruct Hretry
    as [(e & -> & ->)
       |[(rq & e & _ & -> & ->)
        |[(rq & resp & e & _ & -> & Hok & Hdec & ->)
         |[(rq & resp & _ & -> & Hno)
          |(rq & resp & token & _ & -> & Hok & Hdec)]]]].
  all: split; [|split].
  all: try (intros authRequest e' Hin; in_events Hin; done).
  all: try (intros authRequest response e' Hin Hok' Hdec'; in_events Hin;
            first [congruence | split; [congruence|done]]).
  all: try (by intros r' [=]).
  intros r' _. by exists e.
Qed.


(** X15: the request of the token exchange is a GET without body that
    carries the Basic [Authorization] of the transport's user name and
    password whenever one of the two is not empty, whatever the realm of the
    challenge is (the credentials go to the URL the registry names), and no
    header at all when both are empty. *)
Theorem token_request_carries_credentials {W} (net : network url_URL W)
    (w w' : W) (t : tokenAuthTransport.t) (req : Request.t url_URL)
    (res : outcome roundTripResult) (tr : list (event url_URL))
    (authRequest : Request.t url_URL) (a : Response.t + error) :
  run net (RoundTrip t req) w = (res, w', tr) →
  EvDo authRequest a ∈ tr →
  Request.Method authRequest = "GET"
  ∧ Request.Body authRequest = None
  ∧ Request.Header authRequest
    = if negb (Str.is_empty (Username t)) || negb (Str.is_empty (Password t))
      then {[ http_CanonicalHeaderKey "Authorization" :=
                ["Basic " +:+ base64_EncodeToString
                   (Username t +:+ ":" +:+ Password t)] ]}
      else ∅.
Proof.
  intros [(a1 & -> & _)|(r & challenge & w1 & res1 & tr1 & -> & Hcode & -> & Hretry)]
    %RoundTrip_cases Hin.
  { by apply list_elem_of_singleton in Hin. }
  apply authAndRetry_cases in Hretry. destruct Hretry
    as [(e & -> & ->)
       |[(rq & e & Hrq & -> & ->)
        |[(rq & resp & e & Hrq & -> & Hok' & Hdec' & ->)
         |[(rq & resp & Hrq & -> & Hno)
          |(rq & resp & token' & Hrq & -> & Hok' & Hdec')]]]].
  all: in_events Hin; exact Hrq.
Qed.


(** ** The transports of [NewRegistry], one over the other *)

#[local] Arguments RoundTrip : simpl never.

(** The request the injector hands to the transport it wraps. *)
Lemma authRoundTrip_run {W} (net : network url_URL W) (w : W)
    (c : registryClient) (req : Request.t url_URL) :
  run net (authRoundTrip c req) w
  = run net
      (RoundTrip (wrappedTransport c)
         (if Str.HasPrefix (url_String (Request.URL req))
               (basicAuthTransport.URL (authTransport c))
          then
            if negb (Str.is_empty (basicAuthTransport.Username (authTransport c)))
               || negb (Str.is_empty
                          (basicAuthTransport.Password (authTransport c)))
            then Request.SetBasicAuth req
                   (basicAuthTransport.Username (authTransport c))
                   (basicAuthTransport.Password (authTransport c))
            else req
          else req))
      w.
Proof.
  unfold authRoundTrip, basicAuthTransport.RoundTrip, mbind, mret, Prog_bind,
    Prog_ret.
  cbn [over bind perform]. rewrite run_bind.
  destruct (run net (RoundTrip _ _) w) as [[[[resp err]|i n] w1] tr1];
    simpl; by rewrite app_nil_r.
Qed.

Lemma HeaderSet_twice (req : Request.t url_URL) key v1 v2 :
  Request.HeaderSet (Request.HeaderSet req key v1) key v2
  = Request.HeaderSet req key v2.
Proof.
  unfold Request.HeaderSet, Header.Set_. simpl. by rewrite insert_insert_eq.
Qed.

(** X17: through the two transports [NewRegistry] puts one over the other,
    the first round trip of a request carries the Basic [Authorization] of
    the credentials when the URL of the request begins with the registry
    URL and the user name or the password is not empty, and is the request
    as it is otherwise.  A resend is the request as the caller made it with
    [Authorization] set to [Bearer] and the token: the Bearer header takes
    the place of the Basic one, the credentials do not travel with the
    token. *)
Theorem NewRegistry_bearer_replaces_basic {W} (net : network url_URL W)
    (w w' : W) (url username password : string) (req : Request.t url_URL)
    (res : outcome roundTripResult) (tr : list (event url_URL)) :
  run net (authRoundTrip (NewRegistry url username password) req) w
  = (res, w', tr) →
  (∃ a, tr !! 0
        = Some (EvRoundTrip
                  (if Str.HasPrefix (url_String (Request.URL req)) url
                      && (negb (Str.is_empty username)
                          || negb (Str.is_empty password))
                   then Request.SetBasicAuth req username password
                   else req) a))
  ∧ (∀ i req' a, 0 < i → tr !! i = Some (EvRoundTrip req' a) →
      ∃ token,
        req' = Request.HeaderSet req "Authorization" ("Bearer " +:+ token)
        ∧ Header.Get (Request.Header req') "Authorization"
          = "Bearer " +:+ token)
  ∧ (Str.HasPrefix (url_String (Request.URL req)) url = true →
     username ≠ EmptyString ∨ password ≠ EmptyString →
     ∃ sent a,
       tr !! 0 = Some (EvRoundTrip sent a)
       ∧ Request.Method sent = Request.Method req
       ∧ Request.URL sent = Request.URL req
       ∧ Request.Body sent = Request.Body req
       ∧ Request.Header sent
         = <[http_CanonicalHeaderKey "Authorization" :=
               ["Basic " +:+ base64_EncodeToString
                  (username +:+ ":" +:+ password)]]>
             (Request.Header req)).
Proof.
  rewrite authRoundTrip_run. simpl. intros Hrun.
  pose proof (RoundTrip_run net w w' _ _ res tr Hrun) as Hshape.
  destruct Hshape as (a1 & mid & Hmid & _ & Htr).
  assert (∀ i req' a, mid !! i = Some (EvRoundTrip req' a) → False) as Hnot.
  { intros i req' a Hi. eapply Forall_lookup_1 in Hi; [|done]. done. }
  split; [|split].
  - exists a1. destruct Htr as [->|(token & a & _ & ->)]; simpl;
      by destruct (Str.HasPrefix _ _), (negb _ || negb _).
  - intros i req' a Hi Hlook.
    assert (∃ token req1,
              req' = Request.HeaderSet req1 "Authorization" ("Bearer " +:+ token)
              ∧ (req1 = req ∨ req1 = Request.SetBasicAuth req username password))
      as (token & req1 & -> & Hreq1).
    { destruct Htr as [->|(token & a' & _ & ->)]; destruct i as [|i]; try lia;
        simpl in Hlook.
      - by apply Hnot in Hlook.
      - apply lookup_app_Some in Hlook as [Hlook|[_ Hlook]];
          [by apply Hnot in Hlook|].
        apply list_lookup_singleton_Some in Hlook as [_ [= <- _]].
        eexists token, _. split; [done|].
        destruct (Str.HasPrefix _ _); [destruct (negb _ || negb _)|]; auto. }
    exists token. split; [|apply Header_Get_Set].
    destruct Hreq1 as [->| ->]; [done|]. apply HeaderSet_twice.
  - intros Hprefix Hcred.
    assert (negb (Str.is_empty username) || negb (Str.is_empty password) = true)
      as Hnonempty.
    { destruct username, password; try done. by destruct Hcred. }
    rewrite Hprefix, Hnonempty in Htr.
    exists (Request.SetBasicAuth req username password), a1.
    split; [by destruct Htr as [->|(token & a & _ & ->)]|done].
Qed.
End MoreTransports.

(** ** More on [ReTag] *)

Section MoreRetag.
Context `{GoLib url_URL}.

#[local] Arguments sourceRequest : simpl never.
#[local] Arguments destRequest : simpl never.

(** Every run of [ReTag] is one of the eight. *)
Lemma ReTag_run {W} (net : network url_URL W) (w w' : W)
    (r : Registry.t) (repo oldTag newTag : string)
    (res : option error) (tr : list (event url_URL)) :
  run net (Registry.ReTag r repo oldTag newTag) w = (res, w', tr) →
  retagRun r repo oldTag newTag res tr.
Proof.
  unfold Registry.ReTag, Request.New, mbind, mret, Prog_bind, Prog_ret.
  destruct (http_RequestURL (Registry.url r (Registry.manifestsPath repo oldTag)))
    as [u|e] eqn:Hsrc; simpl.
  2:{ intros [= <- _ <-]. by apply retag_source_url. }
  match goal with
  | |- context [onDo net ?rq w] => change rq with (sourceRequest u)
  end.
  destruct (onDo net (sourceRequest u) w) as [[sourceResp|e] w1]; simpl.
  2:{ intros [= <- _ <-]. by apply retag_get_failed. }
  destruct (negb (Response.StatusCode sourceResp =? StatusOK)%Z) eqn:Hcode;
    simpl.
  { apply negb_true_iff, Z.eqb_neq in Hcode.
    intros [= <- _ <-]. by apply retag_get_status. }
  apply negb_false_iff, Z.eqb_eq in Hcode.
  unfold Body.ReadAll.
  destruct (Body.failure (Response.Body sourceResp)) as [e|] eqn:Hread; simpl.
  { intros [= <- _ <-]. by apply retag_read_failed. }
  destruct (http_RequestURL (Registry.url r (Registry.manifestsPath repo newTag)))
    as [u'|e] eqn:Hdst; simpl.
  2:{ intros [= <- _ <-]. by apply retag_dest_url. }
  match goal with
  | |- context [onDo net ?rq w1] => change rq with (destRequest u' sourceResp)
  end.
  destruct (onDo net (destRequest u' sourceResp) w1) as [[destResp|e] w2];
    simpl.
  2:{ intros [= <- _ <-]. by apply retag_put_failed. }
  destruct (negb (Response.StatusCode destResp =? StatusCreated)%Z) eqn:Hcode';
    simpl.
  - apply negb_true_iff, Z.eqb_neq in Hcode'.
    intros [= <- _ <-]. by apply retag_put_status.
  - apply negb_false_iff, Z.eqb_eq in Hcode'.
    intros [= <- _ <-]. by apply retag_done.
Qed.

(** X18: [ReTag] reports success exactly when the manifest was fetched with
    status 200 and the PUT of it was answered 201: the result is nil if and
    only if the run is the GET, the PUT and the closing of the two
    responses, with these two statuses. *)
Theorem ReTag_succeeds_iff_created {W} (net : network url_URL W) (w w' : W)
    (r : Registry.t) (repo oldTag newTag : string)
    (res : option error) (tr : list (event url_URL)) :
  run net (Registry.ReTag r repo oldTag newTag) w = (res, w', tr) →
  res = None ↔
  ∃ getReq getResp putReq putResp,
    tr = [EvDo getReq (inl getResp); EvDo putReq (inl putResp);
          EvClose putResp; EvClose getResp]
    ∧ Response.StatusCode getResp = StatusOK
    ∧ Response.StatusCode putResp = StatusCreated
    ∧ Request.Method getReq = "GET" ∧ Request.Method putReq = "PUT".
Proof.
  intros Hrun%ReTag_run. split.
  - intros ->. inversion Hrun; subst. by eexists _, _, _, _.
  - intros (getReq & getResp & putReq & putResp & -> & Hok & Hcreated & _).
    inversion Hrun; subst; congruence.
Qed.

(** X19: [ReTag] closes the body of every response it has received, once,
    before it returns, whatever the result: the run is its requests
    followed by the closings, and the bodies are closed in the reverse of
    the order the responses came in. *)
Theorem ReTag_closes_every_response {W} (net : network url_URL W) (w w' : W)
    (r : Registry.t) (repo oldTag newTag : string)
    (res : option error) (tr : list (event url_URL)) :
  run net (Registry.ReTag r repo oldTag newTag) w = (res, w', tr) →
  closed tr = reverse (received tr)
  ∧ tr = List.filter isDo tr ++ (EvClose <$> closed tr).
Proof. intros Hrun%ReTag_run. by inversion Hrun. Qed.

(** X20: when the PUT is answered with a status other than 201, [ReTag]
    fails with the [HttpError] of that response's status text and of the
    PUT URL; both responses are closed, the one of the PUT first. *)
Theorem ReTag_put_refused {W} (net : network url_URL W) (w w' : W)
    (r : Registry.t) (repo oldTag newTag : string)
    (res : option error) (tr : list (event url_URL))
    (putReq : Request.t url_URL) (putResp : Response.t) :
  run net (Registry.ReTag r repo oldTag newTag) w = (res, w', tr) →
  tr !! 1 = Some (EvDo putReq (inl putResp)) →
  Response.StatusCode putResp ≠ StatusCreated →
  res = Some (ErrHttp
                {| HttpError.Status := Response.Status putResp;
                   HttpError.URL :=
                     Registry.URL r +:+ "/v2/" +:+ repo +:+ "/manifests/"
                       +:+ newTag |})
  ∧ ∃ getReq getResp,
      tr = [EvDo getReq (inl getResp); EvDo putReq (inl putResp);
            EvClose putResp; EvClose getResp].
Proof.
  intros Hrun%ReTag_run Hput Hcode.
  inversion Hrun; subst; try done; injection Hput as <- <-; try done.
  split; [done|]. by eexists _, _.
Qed.

(** X21: an error of the client is returned as it is, and no request
    follows the failed one.  When the GET fails nothing else happens; when
    the PUT fails the response of the GET is closed. *)
Theorem ReTag_returns_client_error {W} (net : network url_URL W) (w w' : W)
    (r : Registry.t) (repo oldTag newTag : string)
    (res : option error) (tr : list (event url_URL))
    (i : nat) (failed : Request.t url_URL) (e : error) :
  run net (Registry.ReTag r repo oldTag newTag) w = (res, w', tr) →
  tr !! i = Some (EvDo failed (inr e)) →
  res = Some e
  ∧ countEvents isDo tr = S i
  ∧ (tr = [EvDo failed (inr e)]
     ∨ ∃ getReq getResp,
         tr = [EvDo getReq (inl getResp); EvDo failed (inr e);
               EvClose getResp]).
Proof.
  intros Hrun%ReTag_run Hi.
  inversion Hrun; subst;
    repeat (destruct i as [|i]; simpl in Hi; try done);
    injection Hi as <- <-; repeat split; try done.
  - by left.
  - right. by eexists _, _.
Qed.

(** X22: when the body of the 200 response to the GET cannot be read to
    its end, [ReTag] returns the error of the read, closes the response and
    sends no PUT. *)
Theorem ReTag_unreadable_manifest {W} (net : network url_URL W) (w w' : W)
    (r : Registry.t) (repo oldTag newTag : string)
    (res : option error) (tr : list (event url_URL))
    (getReq : Request.t url_URL) (getResp : Response.t) (e : error) :
  run net (Registry.ReTag r repo oldTag newTag) w = (res, w', tr) →
  tr !! 0 = Some (EvDo getReq (inl getResp)) →
  Response.StatusCode getResp = StatusOK →
  Body.failure (Response.Body getResp) = Some e →
  res = Some e ∧ tr = [EvDo getReq (inl getResp); EvClose getResp].
Proof.
  intros Hrun%ReTag_run Hget Hok Hread.
  inversion Hrun; subst; try done; injection Hget as <- <-;
    first [congruence | split; congruence].
Qed.

(** X23: the first request of [ReTag] is a GET without body of the URL
    [base/v2/repository/manifests/oldTag] whose only header is [Accept],
    with the four manifest types in this order: OCI manifest, OCI index,
    Docker manifest list, Docker manifest. *)
Theorem ReTag_get_request {W} (net : network url_URL W) (w w' : W)
    (r : Registry.t) (repo oldTag newTag : string)
    (res : option error) (tr : list (event url_URL))
    (getReq : Request.t url_URL) (a : Response.t + error) :
  run net (Registry.ReTag r repo oldTag newTag) w = (res, w', tr) →
  tr !! 0 = Some (EvDo getReq a) →
  Request.Method getReq = "GET"
  ∧ Request.Body getReq = None
  ∧ http_RequestURL
      (Registry.URL r +:+ "/v2/" +:+ repo +:+ "/manifests/" +:+ oldTag)
    = inl (Request.URL getReq)
  ∧ Request.Header getReq
    = {[ http_CanonicalHeaderKey "Accept" :=
           ["application/vnd.oci.image.manifest.v1+json, "
              +:+ "application/vnd.oci.image.index.v1+json, "
              +:+ "application/vnd.docker.distribution.manifest.list.v2+json, "
              +:+ "application/vnd.docker.distribution.manifest.v2+json"] ]}.
Proof.
  intros Hrun%ReTag_run Hget.
  inversion Hrun; subst; try done; by injection Hget as <- <-.
Qed.

(** X24: the only header of the PUT is [Content-Type], with the first
    [Content-Type] value of the response to the GET.  When that response has
    no [Content-Type], the PUT is sent all the same, with the empty string
    for [Content-Type]. *)
Theorem ReTag_put_content_type {W} (net : network url_URL W) (w w' : W)
    (r : Registry.t) (repo oldTag newTag : string)
    (res : option error) (tr : list (event url_URL))
    (getReq putReq : Request.t url_URL) (getResp : Response.t)
    (a : Response.t + error) :
  run net (Registry.ReTag r repo oldTag newTag) w = (res, w', tr) →
  tr !! 0 = Some (EvDo getReq (inl getResp)) →
  tr !! 1 = Some (EvDo putReq a) →
  Request.Header putReq
  = {[ http_CanonicalHeaderKey "Content-Type" :=
         [Header.Get (Response.Header getResp) "Content-Type"] ]}
  ∧ (Response.Header getResp !! http_CanonicalHeaderKey "Content-Type" = None →
     Request.Header putReq
     = {[ http_CanonicalHeaderKey "Content-Type" := [EmptyString] ]}).
Proof.
  intros Hrun%ReTag_run Hget Hput.
  inversion Hrun; subst; try done; injection Hget as <- <-;
    injection Hput as <- <-.
  all: split; [done|]; intros Hnone; simpl; unfold Header.Set_, Header.Get,
         index_values; by rewrite Hnone.
Qed.
End MoreRetag.

(** ** The command *)

Section MoreCommand.
Context `{GoLib url_URL}.
Variable arguments_Parse : list string → string * string * string + error.

(** A run of [mainCmd] that returns is a run of [ReTag] on the registry the
    environment names, or no run at all when the arguments do not parse. *)
Lemma mainCmd_run {W} (net : network url_URL W) (w w' : W)
    (env : gmap string string) (args : list string)
    (err : option error) (printed : string) (tr : list (event url_URL)) :
  run net (mainCmd arguments_Parse env args) w = (Returned err printed, w', tr) →
  (∃ e, arguments_Parse (tail args) = inr e
        ∧ err = Some e ∧ printed = EmptyString ∧ tr = [])
  ∨ (∃ repository oldTag newTag,
       arguments_Parse (tail args) = inl (repository, oldTag, newTag)
       ∧ retagRun
           {| Registry.URL :=
                match env !! dockerRegistryEnv with
                | Some registryUrl =>
                    if Str.is_empty registryUrl then defaultRegistry
                    else registryUrl
                | None => defaultRegistry
                end |}
           repository oldTag newTag err tr
       ∧ printed
         = match err with
           | Some _ => EmptyString
           | None =>
               "Retagged " +:+ repository
                 +:+ (if Str.HasPrefix oldTag "sha256:" then "@" else ":")
                 +:+ oldTag +:+ " as " +:+ repository +:+ ":" +:+ newTag
                 +:+ String LF EmptyString
           end).
Proof.
  unfold mainCmd. destruct args as [|prog args1]; [done|]. simpl tail.
  destruct (arguments_Parse args1) as [[[repository oldTag] newTag]|e].
  2:{ intros [= <- <- _ <-]. left. by exists e. }
  unfold LookupEnv.
  destruct (env !! dockerUsernameEnv) as [username|];
    destruct (env !! dockerPasswordEnv) as [password|];
    destruct (env !! dockerRegistryEnv) as [registryUrl|];
    cbn [negb orb]; unfold mbind, mret, Prog_bind, Prog_ret;
    rewrite run_bind;
    match goal with
    | |- context [run net (Registry.ReTag ?r ?a ?b ?c) w] =>
        destruct (run net (Registry.ReTag r a b c) w) as [[err1 w1] tr1] eqn:Hrun
    end;
    apply ReTag_run in Hrun; destruct err1 as [e|]; simpl;
    intros [= <- <- _ <-]; right; exists repository, oldTag, newTag;
    rewrite app_nil_r; done.
Qed.

(** X25: [mainCmd] prints its line, [Retagged repository:oldTag as
    repository:newTag] with [@] for the first colon when the old tag begins
    with [sha256:], only when it returns no error, and it returns no error
    exactly when the manifest was fetched with status 200 and the PUT was
    answered 201.  With an error nothing is printed; when the arguments do
    not parse, no request is made. *)
Theorem mainCmd_prints_after_created_only {W} (net : network url_URL W)
    (w w' : W) (env : gmap string string) (args : list string)
    (err : option error) (printed : string) (tr : list (event url_URL)) :
  run net (mainCmd arguments_Parse env args) w = (Returned err printed, w', tr) →
  (err = None ↔
   ∃ getReq getResp putReq putResp,
     tr = [EvDo getReq (inl getResp); EvDo putReq (inl putResp);
           EvClose putResp; EvClose getResp]
     ∧ Response.StatusCode getResp = StatusOK
     ∧ Response.StatusCode putResp = StatusCreated)
  ∧ (err = None →
     ∃ repository oldTag newTag,
       arguments_Parse (tail args) = inl (repository, oldTag, newTag)
       ∧ printed
         = "Retagged " +:+ repository
             +:+ (if Str.HasPrefix oldTag "sha256:" then "@" else ":")
             +:+ oldTag +:+ " as " +:+ repository +:+ ":" +:+ newTag
             +:+ String LF EmptyString)
  ∧ (err ≠ None → printed = EmptyString)
  ∧ (∀ e, arguments_Parse (tail args) = inr e → err = Some e ∧ tr = []).
Proof.
  intros [(e & Hparse & -> & -> & ->)
         |(repository & oldTag & newTag & Hparse & Hrun & ->)]%mainCmd_run.
  { split; [|split; [done|split; [done|]]].
    - split; [done|]. by intros (? & ? & ? & ? & [=] & _).
    - intros e'. rewrite Hparse. by intros [= <-]. }
  split; [|split; [|split]].
  - split.
    + intros ->. inversion Hrun; subst. by eexists _, _, _, _.
    + intros (getReq & getResp & putReq & putResp & -> & Hok & Hcreated).
      inversion Hrun; subst; congruence.
  - intros ->. by exists repository, oldTag, newTag.
  - by destruct err.
  - intros e. by rewrite Hparse.
Qed.

(** X26: the registry [mainCmd] talks to is the value of [DOCKER_REGISTRY]
    when the variable is set and not empty, and [https://index.docker.io/]
    otherwise; the URL of the manifest is that text followed by
    [/v2/repository/manifests/oldTag], so that with the default registry,
    which ends in a slash, it holds two slashes before [v2]. *)
Theorem mainCmd_registry_url {W} (net : network url_URL W)
    (w w' : W) (env : gmap string string) (args : list string)
    (res : ended) (tr : list (event url_URL))
    (getReq : Request.t url_URL) (a : Response.t + error) :
  run net (mainCmd arguments_Parse env args) w = (res, w', tr) →
  tr !! 0 = Some (EvDo getReq a) →
  ∃ repository oldTag newTag,
    arguments_Parse (tail args) = inl (repository, oldTag, newTag)
    ∧ (env !! "DOCKER_REGISTRY" = None ∨ env !! "DOCKER_REGISTRY" = Some EmptyString →
       http_RequestURL
         ("https://index.docker.io//v2/" +:+ repository +:+ "/manifests/"
            +:+ oldTag)
       = inl (Request.URL getReq))
    ∧ (∀ registryUrl,
         env !! "DOCKER_REGISTRY" = Some registryUrl →
         registryUrl ≠ EmptyString →
         http_RequestURL
           (registryUrl +:+ "/v2/" +:+ repository +:+ "/manifests/" +:+ oldTag)
         = inl (Request.URL getReq)).
Proof.
  intros Hrun Hget.
  assert (∃ err printed, res = Returned err printed) as (err & printed & ->).
  { revert Hrun. unfold mainCmd. destruct args as [|prog args1].
    { intros [= _ _ <-]. done. }
    destruct (arguments_Parse args1) as [[[repository oldTag] newTag]|e].
    2:{ intros [= _ _ <-]. done. }
    unfold LookupEnv.
    destruct (env !! dockerUsernameEnv), (env !! dockerPasswordEnv),
      (env !! dockerRegistryEnv);
      unfold mbind, mret, Prog_bind, Prog_ret; rewrite run_bind;
      match goal with
      | |- context [run net (Registry.ReTag ?r ?a ?b ?c) w] =>
          destruct (run net (Registry.ReTag r a b c) w) as [[[e|] w1] tr1]
      end; simpl; intros [= <- _ _]; by eexists _, _. }
  apply mainCmd_run in Hrun
    as [(e & Hparse & -> & -> & ->)
       |(repository & oldTag & newTag & Hparse & Hrun & _)]; [done|].
  exists repository, oldTag, newTag. split; [done|].
  fold dockerRegistryEnv.
  split.
  - intros Henv.
    assert (match env !! dockerRegistryEnv with
            | Some registryUrl =>
                if Str.is_empty registryUrl then defaultRegistry else registryUrl
            | None => defaultRegistry
            end = defaultRegistry) as Hreg
      by (by destruct Henv as [-> | ->]).
    rewrite Hreg in Hrun.
    inversion Hrun; subst; try done; by injection Hget as <- <-.
  - intros registryUrl Henv Hne. rewrite Henv in Hrun.
    destruct registryUrl as [|c registryUrl]; [done|]. simpl in Hrun.
    inversion Hrun; subst; try done; by injection Hget as <- <-.
Qed.
End MoreCommand.

(** ** When the transports panic, and whom the credentials go to *)

Lemma parseAuthValues_panics values acc i n :
  parseAuthValues values acc = IndexOutOfRange i n →
  ∃ h, h ∈ values ∧ parseValueAndParams h = IndexOutOfRange i n.
Proof.
  revert acc. induction values as [|h values IH]; intros acc; simpl; [done|].
  destruct (parseValueAndParams h) as [[v p]|i' n'] eqn:Hh.
  - intros Hrest.
    assert (∃ acc', parseAuthValues values acc' = IndexOutOfRange i n)
      as [acc' (h' & Hin & Hp)%IH] by (destruct (Str.is_empty v); by eexists).
    exists h'. split; [by right|done].
  - intros [= -> ->]. exists h. split; [by left|done].
Qed.

(** One value that makes the parser panic, wherever it stands among the
    values, makes the loop over the values panic. *)
Lemma parseAuthValues_panics_at values acc h i n :
  h ∈ values → parseValueAndParams h = IndexOutOfRange i n →
  ∃ i' n', parseAuthValues values acc = IndexOutOfRange i' n'.
Proof.
  revert acc. induction values as [|h' values IH]; intros acc Hin Hp; simpl.
  { by apply elem_of_nil in Hin. }
  destruct (parseValueAndParams h') as [[v p]|i' n'] eqn:Hh; [|by eexists _, _].
  apply elem_of_cons in Hin as [->|Hin]; [congruence|].
  destruct (Str.is_empty v); by apply IH.
Qed.

Lemma HasPrefix_app p s : Str.HasPrefix (p +:+ s) p = true.
Proof.
  unfold Str.HasPrefix. induction p as [|c p IH]; [by destruct s|].
  rewrite app_String. simpl. by destruct (ascii_dec c c).
Qed.

Section Panics.
Context `{GoLib url_URL}.
Import tokenAuthTransport.

(** X27: the bearer retry transport panics on exactly one kind of answer
    of the wrapped transport: a 401 without error one of whose
    [WWW-Authenticate] values makes [parseValueAndParams] panic.  Such an
    answer makes it panic wherever that value stands among the values, a
    valid Bearer challenge before it included: the run is the one round trip,
    no exchange is made and the response is not returned.  On every other
    answer [RoundTrip] does not panic. *)
Theorem RoundTrip_panics_iff {W} (net : network url_URL W) (w w' : W)
    (t : tokenAuthTransport.t) (req : Request.t url_URL)
    (resp : option Response.t) (err : option error) :
  onRoundTrip net req w = ((resp, err), w') →
  (∀ r h i n,
     resp = Some r → err = None →
     Response.StatusCode r = StatusUnauthorized →
     h ∈ index_values (Response.Header r)
           (http_CanonicalHeaderKey "WWW-Authenticate") →
     parseValueAndParams h = IndexOutOfRange i n →
     ∃ i' n',
       run net (RoundTrip t req) w
       = (IndexOutOfRange i' n', w', [EvRoundTrip req (Some r, None)]))
  ∧ (∀ i n w'' tr,
       run net (RoundTrip t req) w = (IndexOutOfRange i n, w'', tr) →
       ∃ r h,
         resp = Some r ∧ err = None
         ∧ Response.StatusCode r = StatusUnauthorized
         ∧ h ∈ index_values (Response.Header r)
                 (http_CanonicalHeaderKey "WWW-Authenticate")
         ∧ parseValueAndParams h = IndexOutOfRange i n
         ∧ w'' = w' ∧ tr = [EvRoundTrip req (Some r, None)]).
Proof.
  intros Hnet. split.
  - intros r h i n -> -> Hcode Hin Hp.
    destruct (parseAuthValues_panics_at _ [] h i n Hin Hp) as (i' & n' & Hpanic).
    exists i', n'. unfold RoundTrip, mbind, mret, Prog_bind, Prog_ret. simpl.
    rewrite Hnet. simpl. apply Z.eqb_eq in Hcode. rewrite Hcode.
    unfold parseAuthHeader. by rewrite Hpanic.
  - intros i n w'' tr.
    unfold RoundTrip, mbind, mret, Prog_bind, Prog_ret. simpl.
    rewrite Hnet. simpl.
    destruct err as [e|]; simpl; [by intros [=]|].
    destruct resp as [r0|]; simpl; [|by intros [=]].
    destruct (Response.StatusCode r0 =? StatusUnauthorized)%Z eqn:Hcode; simpl;
      [|by intros [=]].
    apply Z.eqb_eq in Hcode.
    destruct (parseAuthHeader (Response.Header r0)) as [challenges|i0 n0]
      eqn:Hparse; simpl.
    + destruct (bearerChallenge challenges) as [bc|]; simpl; [|by intros [=]].
      rewrite run_bind.
      match goal with
      | |- context [run net (authAndRetry ?a ?b ?c) w'] =>
          destruct (run net (authAndRetry a b c) w') as [[res1 w2] tr1]
      end.
      simpl. by intros [=].
    + intros [= -> -> <- <-].
      apply parseAuthValues_panics in Hparse as (h & Hin & Hp).
      by exists r0, h.
Qed.

(** X28: the test of the Basic-Auth injector is on the text of the URL: a
    request whose URL string is the registry URL followed by anything, more
    of a host name included, is sent with the Basic [Authorization] of the
    credentials when the user name or the password is not empty. *)
Theorem basic_auth_prefix_is_textual {W} (net : network url_URL W) (w : W)
    (b : basicAuthTransport.t) (req : Request.t url_URL) (suffix : string) :
  url_String (Request.URL req) = basicAuthTransport.URL b +:+ suffix →
  basicAuthTransport.Username b ≠ EmptyString
  ∨ basicAuthTransport.Password b ≠ EmptyString →
  ∃ a w' sent,
    run net (basicAuthTransport.RoundTrip b req) w
    = (a, w', [EvRoundTrip sent a])
    ∧ sent = Request.SetBasicAuth req (basicAuthTransport.Username b)
               (basicAuthTransport.Password b)
    ∧ Header.Get (Request.Header sent) "Authorization"
      = "Basic " +:+ base64_EncodeToString
          (basicAuthTransport.Username b +:+ ":"
             +:+ basicAuthTransport.Password b).
Proof.
  intros Hurl Hcred.
  unfold basicAuthTransport.RoundTrip, mbind, mret, Prog_bind, Prog_ret.
  rewrite Hurl, HasPrefix_app.
  replace (negb (Str.is_empty (basicAuthTransport.Username b))
           || negb (Str.is_empty (basicAuthTransport.Password b)))
    with true.
  2:{ destruct (basicAuthTransport.Username b), (basicAuthTransport.Password b);
        try done. by destruct Hcred. }
  simpl.
  destruct (onRoundTrip net _ w) as [[resp err] w'] eqn:Hnet.
  eexists (resp, err), w', _. split; [reflexivity|]. split; [reflexivity|].
  apply Header_Get_Set.
Qed.
End Panics.

(** ** The further properties on a registry *)

Section MoreExamples.
Import Sim Scenario.

Lemma parseAuthHeader_returns_without_backslash_witness :
  ∃ challenges,
    @parseAuthHeader _ Sim.lib (Response.Header bearer401) = Ok challenges.
Proof.
  apply (@parseAuthHeader_returns_without_backslash _ Sim.lib
           (Response.Header bearer401)).
  vm_compute. apply Forall_cons_2; [exact I|apply Forall_nil_2].
Defined.

Lemma escape_resumes_at_twice_the_index_witness :
  expectTokenOrQuoted
    (String dquote
       ("a" +:+ String backslash
          (EmptyString +:+ String dquote ("b" +:+ String dquote EmptyString))))
  = Ok ("a" +:+ String dquote "b", EmptyString)
  ∧ expectTokenOrQuoted
      (String dquote
         ("ab" +:+ String backslash
            ("x" +:+ String "c" ("d" +:+ String dquote ",service=s"))))
    = Ok ("ab" +:+ String "c" "d", ",service=s").
Proof.
  split.
  - apply (escape_resumes_at_twice_the_index "a" EmptyString dquote "b"
             EmptyString); [exact I|exact I|reflexivity].
  - apply (escape_resumes_at_twice_the_index "ab" "x" "c"%char "d"
             ",service=s"); [exact I|exact I|reflexivity].
Defined.

Lemma parameters_stored_later_wins_witness :
  let ps := [("realm", "a"); ("Realm", "b"); ("service", "s")] in
  parseValueAndParams ("Bearer" +:+ " " +:+ Str.Join (item <$> ps) ",")
  = Ok ("bearer", storeAll ∅ ps)
  ∧ storeAll ∅ ps !! "realm" = Some "b".
Proof.
  intros ps.
  assert (Forall (λ kv, wellFormed kv) ps) as Hps
    by (repeat apply Forall_cons_2; [exact I..|apply Forall_nil_2]).
  destruct (parameters_stored_later_wins "Bearer" ps I Hps) as [Hparse Hlast].
  split; [exact Hparse|].
  apply (Hlast [("realm", "a")] "Realm" "b" [("service", "s")] eq_refl).
  apply Forall_cons_2; [discriminate|apply Forall_nil_2].
Defined.

Lemma spaces_and_bare_values_witness :
  parseValueAndParams "Bearer  realm=r , Service=s "
  = Ok ("bearer", {[ "service" := "s"; "realm" := "r" ]}).
Proof.
  apply (spaces_and_bare_values "Bearer" "  " "realm" "r" " " " " "Service"
           "s" " "); try exact I. discriminate.
Defined.

Lemma space_at_equals_ends_parameters_witness :
  parseValueAndParams
    ("Bearer realm=" +:+ quote "r" +:+ ",service =" +:+ quote "s")
  = Ok ("bearer", {[ "realm" := "r" ]})
  ∧ parseValueAndParams
      ("Bearer realm=" +:+ quote "r" +:+ ",service= " +:+ quote "s")
    = Ok ("bearer", {[ "realm" := "r" ]}).
Proof.
  assert (Forall (λ kv, wellFormed kv) [("realm", "r")]) as Hps
    by (apply Forall_cons_2; [exact I|apply Forall_nil_2]).
  exact (space_at_equals_ends_parameters "Bearer" [("realm", "r")] "service"
           SP EmptyString (quote "s") I Hps I I).
Defined.

Lemma parseAuthHeader_challenges_shape_witness :
  let challenges :=
    [{| Scheme := "bearer";
        Parameters := {[ "realm" := "https://auth.example/token";
                         "service" := "registry.example";
                         "scope" := "repository:acme/widget:pull" ]} |}] in
  @parseAuthHeader _ Sim.lib (Response.Header bearer401) = Ok challenges
  ∧ length challenges ≤ 1
  ∧ Forall (λ c, Str.ToLower (Scheme c) = Scheme c) challenges.
Proof.
  intros challenges.
  assert (@parseAuthHeader _ Sim.lib (Response.Header bearer401) = Ok challenges)
    as Hparse by (vm_compute; reflexivity).
  split; [exact Hparse|].
  destruct (@parseAuthHeader_challenges_shape _ Sim.lib _ _ Hparse)
    as [Hlen Hall].
  split; [exact Hlen|].
  eapply Forall_impl; [exact Hall|]. intros c (_ & Hlower & _). exact Hlower.
Defined.

Lemma RoundTrip_passes_through_witness :
  run (scripted [(Some notFound404, None)] [])
      (tokenAuthTransport.RoundTrip transport getManifest) (0, 0)
  = (Ok (Some notFound404, None), (1, 0),
     [EvRoundTrip getManifest (Some notFound404, None)]).
Proof.
  apply (RoundTrip_passes_through (scripted [(Some notFound404, None)] [])
           (0, 0) (1, 0) transport getManifest (Some notFound404) None).
  - reflexivity.
  - right. right. exists notFound404. split; [reflexivity|discriminate].
Defined.

Lemma exchange_error_returned_without_resend_witness :
  let tr := [EvRoundTrip getManifest (Some bearer401, None);
             EvClose bearer401;
             EvDo exchange (inr (ErrLib "EOF"))] in
  run (scripted [(Some bearer401, None)] [])
      (tokenAuthTransport.RoundTrip transport getManifest) (0, 0)
  = (Ok (None, Some (ErrLib "EOF")), (1, 1), tr)
  ∧ countEvents isRoundTrip tr = 1.
Proof.
  intros tr.
  assert (run (scripted [(Some bearer401, None)] [])
              (tokenAuthTransport.RoundTrip transport getManifest) (0, 0)
          = (Ok (None, Some (ErrLib "EOF")), (1, 1), tr)) as Hrun
    by (vm_compute; reflexivity).
  split; [exact Hrun|].
  destruct (proj1 (exchange_error_returned_without_resend _ _ _ _ _ _ _ Hrun)
              exchange (ErrLib "EOF")) as (_ & Hcount & _).
  { apply list_elem_of_In. simpl. tauto. }
  exact Hcount.
Defined.


Lemma token_request_carries_credentials_witness :
  Request.Method exchange = "GET"
  ∧ Request.Body exchange = None
  ∧ Request.Header exchange
    = {[ "Authorization" := ["Basic am9zaGRrOmh1bnRlcjI="] ]}.
Proof.
  assert (run twice401 (tokenAuthTransport.RoundTrip transport getManifest)
            (0, 0)
          = (Ok (Some second401, None), (2, 1),
             [EvRoundTrip getManifest (Some bearer401, None);
              EvClose bearer401;
              EvDo exchange (inl token200);
              EvClose token200;
              EvRoundTrip resend (Some second401, None)])) as Hrun
    by (vm_compute; reflexivity).
  apply (token_request_carries_credentials twice401 (0, 0) (2, 1) transport
           getManifest _ _ exchange (inl token200) Hrun).
  apply list_elem_of_In. simpl. tauto.
Defined.


Lemma NewRegistry_bearer_replaces_basic_witness :
  let tr := [EvRoundTrip (Request.SetBasicAuth getManifest "joshdk" "hunter2")
               (Some bearer401, None);
             EvClose bearer401;
             EvDo exchange (inl token200);
             EvClose token200;
             EvRoundTrip resend (Some second401, None)] in
  run twice401
      (authRoundTrip (NewRegistry "https://registry.example" "joshdk" "hunter2")
         getManifest) (0, 0)
  = (Ok (Some second401, None), (2, 1), tr)
  ∧ ∃ token,
      resend = Request.HeaderSet getManifest "Authorization" ("Bearer " +:+ token)
      ∧ Header.Get (Request.Header resend) "Authorization" = "Bearer " +:+ token.
Proof.
  intros tr.
  assert (run twice401
            (authRoundTrip
               (NewRegistry "https://registry.example" "joshdk" "hunter2")
               getManifest) (0, 0)
          = (Ok (Some second401, None), (2, 1), tr)) as Hrun
    by (vm_compute; reflexivity).
  split; [exact Hrun|].
  apply (proj1 (proj2 (NewRegistry_bearer_replaces_basic twice401 (0, 0)
                         (2, 1) "https://registry.example" "joshdk" "hunter2"
                         getManifest _ tr Hrun))
           4 resend (Some second401, None));
    [lia|reflexivity].
Defined.

Lemma ReTag_succeeds_iff_created_witness :
  let tr := [EvDo getManifest (inl manifest200);
             EvDo putManifest (inl created201);
             EvClose created201; EvClose manifest200] in
  run (scripted [] [inl manifest200; inl created201])
      (Registry.ReTag registry "acme/widget" "1.0.0" "1.0.1") (0, 0)
  = (None, (0, 2), tr)
  ∧ ∃ getReq getResp putReq putResp,
      tr = [EvDo getReq (inl getResp); EvDo putReq (inl putResp);
            EvClose putResp; EvClose getResp]
      ∧ Response.StatusCode getResp = StatusOK
      ∧ Response.StatusCode putResp = StatusCreated
      ∧ Request.Method getReq = "GET" ∧ Request.Method putReq = "PUT".
Proof.
  intros tr.
  assert (run (scripted [] [inl manifest200; inl created201])
              (Registry.ReTag registry "acme/widget" "1.0.0" "1.0.1") (0, 0)
          = (None, (0, 2), tr)) as Hrun
    by (vm_compute; reflexivity).
  split; [exact Hrun|].
  exact (proj1 (ReTag_succeeds_iff_created _ _ _ _ _ _ _ _ _ Hrun) eq_refl).
Defined.

Lemma ReTag_closes_every_response_witness :
  let tr := [EvDo getManifest (inl manifest200);
             EvDo putManifest (inl forbidden403);
             EvClose forbidden403; EvClose manifest200] in
  run (scripted [] [inl manifest200; inl forbidden403])
      (Registry.ReTag registry "acme/widget" "1.0.0" "1.0.1") (0, 0)
  = (Some (ErrHttp
             {| HttpError.Status := "403 Forbidden";
                HttpError.URL :=
                  "https://registry.example/v2/acme/widget/manifests/1.0.1" |}),
     (0, 2), tr)
  ∧ closed tr = reverse (received tr)
  ∧ tr = List.filter isDo tr ++ (EvClose <$> closed tr).
Proof.
  intros tr.
  assert (run (scripted [] [inl manifest200; inl forbidden403])
              (Registry.ReTag registry "acme/widget" "1.0.0" "1.0.1") (0, 0)
          = (Some (ErrHttp
                     {| HttpError.Status := "403 Forbidden";
                        HttpError.URL :=
                          "https://registry.example/v2/acme/widget/manifests/1.0.1"
                     |}),
             (0, 2), tr)) as Hrun
    by (vm_compute; reflexivity).
  split; [exact Hrun|].
  exact (ReTag_closes_every_response _ _ _ _ _ _ _ _ _ Hrun).
Defined.

Lemma ReTag_put_refused_witness :
  let tr := [EvDo getManifest (inl manifest200);
             EvDo putManifest (inl forbidden403);
             EvClose forbidden403; EvClose manifest200] in
  ∃ res,
    run (scripted [] [inl manifest200; inl forbidden403])
        (Registry.ReTag registry "acme/widget" "1.0.0" "1.0.1") (0, 0)
    = (res, (0, 2), tr)
    ∧ res = Some (ErrHttp
                    {| HttpError.Status := Response.Status forbidden403;
                       HttpError.URL :=
                         Registry.URL registry +:+ "/v2/" +:+ "acme/widget"
                           +:+ "/manifests/" +:+ "1.0.1" |}).
Proof.
  intros tr. eexists.
  assert (run (scripted [] [inl manifest200; inl forbidden403])
              (Registry.ReTag registry "acme/widget" "1.0.0" "1.0.1") (0, 0)
          = (_, (0, 2), tr)) as Hrun
    by (vm_compute; reflexivity).
  split; [exact Hrun|].
  apply (ReTag_put_refused _ _ _ _ _ _ _ _ _ putManifest forbidden403 Hrun);
    [reflexivity|discriminate].
Defined.

Lemma ReTag_returns_client_error_witness :
  let tr := [EvDo getManifest (inl manifest200);
             EvDo putManifest (inr (ErrLib "EOF"));
             EvClose manifest200] in
  run (scripted [] [inl manifest200])
      (Registry.ReTag registry "acme/widget" "1.0.0" "1.0.1") (0, 0)
  = (Some (ErrLib "EOF"), (0, 2), tr)
  ∧ countEvents isDo tr = 2.
Proof.
  intros tr.
  assert (run (scripted [] [inl manifest200])
              (Registry.ReTag registry "acme/widget" "1.0.0" "1.0.1") (0, 0)
          = (Some (ErrLib "EOF"), (0, 2), tr)) as Hrun
    by (vm_compute; reflexivity).
  split; [exact Hrun|].
  destruct (ReTag_returns_client_error _ _ _ _ _ _ _ _ _ 1 putManifest
              (ErrLib "EOF") Hrun eq_refl) as (_ & Hcount & _).
  exact Hcount.
Defined.

Lemma ReTag_unreadable_manifest_witness :
  let res := Some (ErrLib "unexpected EOF") in
  let tr := [EvDo getManifest (inl broken200); EvClose broken200] in
  run (scripted [] [inl broken200])
      (Registry.ReTag registry "acme/widget" "1.0.0" "1.0.1") (0, 0)
  = (res, (0, 1), tr)
  ∧ res = Some (ErrLib "unexpected EOF")
  ∧ tr = [EvDo getManifest (inl broken200); EvClose broken200].
Proof.
  intros res tr.
  assert (run (scripted [] [inl broken200])
              (Registry.ReTag registry "acme/widget" "1.0.0" "1.0.1") (0, 0)
          = (res, (0, 1), tr)) as Hrun
    by (vm_compute; reflexivity).
  split; [exact Hrun|].
  apply (ReTag_unreadable_manifest _ _ _ _ _ _ _ _ _ getManifest broken200
           (ErrLib "unexpected EOF") Hrun); reflexivity.
Defined.

Lemma ReTag_get_request_witness :
  Request.Method getManifest = "GET"
  ∧ Request.Body getManifest = None
  ∧ Sim.Parse
      (Registry.URL registry +:+ "/v2/" +:+ "acme/widget" +:+ "/manifests/"
         +:+ "1.0.0")
    = inl (Request.URL getManifest)
  ∧ Request.Header getManifest
    = {[ "Accept" :=
           ["application/vnd.oci.image.manifest.v1+json, "
              +:+ "application/vnd.oci.image.index.v1+json, "
              +:+ "application/vnd.docker.distribution.manifest.list.v2+json, "
              +:+ "application/vnd.docker.distribution.manifest.v2+json"] ]}.
Proof.
  assert (run (scripted [] [inl notFound404])
              (Registry.ReTag registry "acme/widget" "1.0.0" "1.0.1") (0, 0)
          = (Some (ErrHttp
                     {| HttpError.Status := "404 Not Found";
                        HttpError.URL :=
                          "https://registry.example/v2/acme/widget/manifests/1.0.0"
                     |}),
             (0, 1),
             [EvDo getManifest (inl notFound404); EvClose notFound404]))
    as Hrun by (vm_compute; reflexivity).
  exact (ReTag_get_request _ _ _ _ _ _ _ _ _ getManifest (inl notFound404)
           Hrun eq_refl).
Defined.

Lemma ReTag_put_content_type_witness :
  let putReq :=
    {| Request.Method := "PUT";
       Request.URL :=
         {| path := "https://registry.example/v2/acme/widget/manifests/1.0.1";
            RawQuery := EmptyString |};
       Request.Header := {[ "Content-Type" := [EmptyString] ]};
       Request.Body := Some (Str.bytes "{schemaVersion:2}") |} in
  let tr := [EvDo getManifest (inl untyped200);
             EvDo putReq (inl created201);
             EvClose created201; EvClose untyped200] in
  run (scripted [] [inl untyped200; inl created201])
      (Registry.ReTag registry "acme/widget" "1.0.0" "1.0.1") (0, 0)
  = (None, (0, 2), tr)
  ∧ Request.Header putReq = {[ "Content-Type" := [EmptyString] ]}.
Proof.
  intros putReq tr.
  assert (run (scripted [] [inl untyped200; inl created201])
              (Registry.ReTag registry "acme/widget" "1.0.0" "1.0.1") (0, 0)
          = (None, (0, 2), tr)) as Hrun
    by (vm_compute; reflexivity).
  split; [exact Hrun|].
  apply (proj2 (ReTag_put_content_type _ _ _ _ _ _ _ _ _ getManifest putReq
                  untyped200 (inl created201) Hrun eq_refl eq_refl)).
  reflexivity.
Defined.

Lemma mainCmd_prints_after_created_only_witness :
  let tr := [EvDo getManifest (inl manifest200);
             EvDo putManifest (inl created201);
             EvClose created201; EvClose manifest200] in
  let printed :=
    "Retagged acme/widget:1.0.0 as acme/widget:1.0.1" +:+ String LF EmptyString in
  run (scripted [] [inl manifest200; inl created201])
      (mainCmd ParseArgs environment commandLine) (0, 0)
  = (Returned None printed, (0, 2), tr)
  ∧ ∃ repository oldTag newTag,
      ParseArgs (tail commandLine) = inl (repository, oldTag, newTag)
      ∧ printed
        = "Retagged " +:+ repository
            +:+ (if Str.HasPrefix oldTag "sha256:" then "@" else ":")
            +:+ oldTag +:+ " as " +:+ repository +:+ ":" +:+ newTag
            +:+ String LF EmptyString.
Proof.
  intros tr printed.
  assert (run (scripted [] [inl manifest200; inl created201])
              (mainCmd ParseArgs environment commandLine) (0, 0)
          = (Returned None printed, (0, 2), tr)) as Hrun
    by (vm_compute; reflexivity).
  split; [exact Hrun|].
  exact (proj1 (proj2 (mainCmd_prints_after_created_only ParseArgs _ _ _ _ _
                         _ _ _ Hrun)) eq_refl).
Defined.

Lemma mainCmd_registry_url_witness :
  let getDefault :=
    {| Request.Method := "GET";
       Request.URL :=
         {| path := "https://index.docker.io//v2/acme/widget/manifests/1.0.0";
            RawQuery := EmptyString |};
       Request.Header := Request.Header getManifest;
       Request.Body := None |} in
  let tr := [EvDo getDefault (inl notFound404); EvClose notFound404] in
  ∃ res,
    run (scripted [] [inl notFound404]) (mainCmd ParseArgs ∅ commandLine) (0, 0)
    = (res, (0, 1), tr)
    ∧ ∃ repository oldTag newTag,
        ParseArgs (tail commandLine) = inl (repository, oldTag, newTag)
        ∧ Sim.Parse
            ("https://index.docker.io//v2/" +:+ repository +:+ "/manifests/"
               +:+ oldTag)
          = inl (Request.URL getDefault).
Proof.
  intros getDefault tr. eexists.
  assert (run (scripted [] [inl notFound404])
              (mainCmd ParseArgs ∅ commandLine) (0, 0)
          = (_, (0, 1), tr)) as Hrun
    by (vm_compute; reflexivity).
  split; [exact Hrun|].
  destruct (mainCmd_registry_url ParseArgs _ _ _ _ _ _ _ getDefault
              (inl notFound404) Hrun eq_refl)
    as (repository & oldTag & newTag & Hparse & Hdefault & _).
  exists repository, oldTag, newTag. split; [exact Hparse|].
  apply Hdefault. left. reflexivity.
Defined.

Lemma RoundTrip_panics_iff_witness :
  ∃ i n,
    run (scripted [(Some mixed401, None)] [inl token200])
        (tokenAuthTransport.RoundTrip transport getManifest) (0, 0)
    = (IndexOutOfRange i n, (1, 0),
       [EvRoundTrip getManifest (Some mixed401, None)]).
Proof.
  apply (proj1 (RoundTrip_panics_iff
                  (scripted [(Some mixed401, None)] [inl token200])
                  (0, 0) (1, 0) transport getManifest (Some mixed401) None
                  eq_refl)
           mixed401
           ("Basic realm=" +:+ String dquote (String backslash EmptyString))
           0 0 eq_refl eq_refl eq_refl).
  - vm_compute. apply list_elem_of_In. simpl. tauto.
  - vm_compute. reflexivity.
Defined.

Lemma basic_auth_prefix_is_textual_witness :
  ∃ a w' sent,
    run (scripted [(Some notFound404, None)] [])
        (basicAuthTransport.RoundTrip injector lookalike) (0, 0)
    = (a, w', [EvRoundTrip sent a])
    ∧ sent = Request.SetBasicAuth lookalike "joshdk" "hunter2"
    ∧ Header.Get (Request.Header sent) "Authorization"
      = "Basic " +:+ "am9zaGRrOmh1bnRlcjI=".
Proof.
  assert (basicAuthTransport.Username injector ≠ EmptyString
          ∨ basicAuthTransport.Password injector ≠ EmptyString) as Hcred
    by (left; discriminate).
  exact (basic_auth_prefix_is_textual
           (scripted [(Some notFound404, None)] []) (0, 0) injector lookalike
           ".attacker.example/v2/" eq_refl Hcred).
Defined.
End MoreExamples.
